(** * apod_desktop.py: the APOD image cache script, embedded in Rocq

    The script is a straight-line [main] over a handful of helpers that read
    [sys.argv], talk to the network ([requests.get]), to the file system
    ([os.path.isdir], [os.mkdir]) and to an SQLite file ([sqlite3]).  The
    embedding threads an explicit [World] through a state-and-exception
    monad; every Python function of the script is one definition of the same
    name. *)

From Stdlib Require Import ZArith Lia.
From Stdlib.Strings Require Import Ascii String Byte.
From stdpp Require Import base strings list gmap.

Local Open Scope string_scope.
Local Open Scope Z_scope.

(** ** Python values, exceptions, results *)

Definition bytes := list Byte.byte.

(** The value of a [hashlib.sha256(...)] object: its 32-byte digest. *)
Definition Digest := list Byte.byte.

Inductive PyVal :=
| VNone
| VStr (s : string)
| VInt (n : Z)
| VBytes (b : bytes)
| VHash (d : Digest).

Inductive exn :=
| SystemExit (arg : PyVal)              (* sys.exit(arg) *)
| IndexError
| ValueError (msg : string)
| TypeError (msg : string)
| FileExistsError (path : string)
| FileNotFoundError (path : string)
| ConnectionError (msg : string)        (* requests.exceptions.ConnectionError *)
| OperationalError (msg : string)       (* sqlite3.OperationalError *)
| DatabaseError (msg : string)          (* sqlite3.DatabaseError *)
| NotADirectoryError (path : string)
| OSError (msg : string).

Inductive result (A : Type) :=
| Return (a : A)
| Raise (e : exn).
Arguments Return {A} a.
Arguments Raise {A} e.

(** Exit status of the interpreter when [e] reaches the top level:
    [sys.exit()] and [sys.exit(None)] give 0, [sys.exit(n)] gives n (one
    byte), any other argument is printed on stderr and gives 1, and an
    uncaught exception gives 1 (after its traceback). *)
Definition exit_status (e : exn) : Z :=
  match e with
  | SystemExit VNone => 0
  | SystemExit (VInt n) => n mod 256
  | SystemExit _ => 1
  | _ => 1
  end.

(** ** The file system: nodes named by the spelling of their path

    The machine is a Linux one with a single user who may read and write
    everywhere, no symbolic links and no other process at work.  A node is
    stored under the spelling of its path without slashes at its end. *)

Inductive Node :=
| Dir
| File (content : bytes).

(** *** String helpers: [str.split('/')], [posixpath.join], [posixpath.dirname] *)

Definition slash : ascii := "/"%char.

Fixpoint has_slash (s : string) : bool :=
  match s with
  | EmptyString => false
  | String c s' => (Ascii.eqb c slash || has_slash s')%bool
  end.

(** [s.split('/')]: never empty; the pieces hold no [/]. *)
Fixpoint split_slash (s : string) : list string :=
  match s with
  | EmptyString => [ "" ]
  | String c s' =>
      if Ascii.eqb c slash then "" :: split_slash s'
      else match split_slash s' with
           | [] => [ String c "" ]
           | piece :: rest => String c piece :: rest
           end
  end.

Definition startswith_slash (s : string) : bool :=
  match s with
  | String c _ => Ascii.eqb c slash
  | EmptyString => false
  end.

Fixpoint endswith_slash (s : string) : bool :=
  match s with
  | EmptyString => false
  | String c EmptyString => Ascii.eqb c slash
  | String _ s' => endswith_slash s'
  end.

(** [os.path.join(a, b)] of posixpath, for one component [b]. *)
Definition path_join (a b : string) : string :=
  if startswith_slash b then b
  else if (String.eqb a "" || endswith_slash a)%bool then a +:+ b
  else a +:+ "/" +:+ b.

(** [s.rstrip('/')]. *)
Fixpoint rstrip_slash (s : string) : string :=
  match s with
  | EmptyString => EmptyString
  | String c s' =>
      match rstrip_slash s' with
      | EmptyString => if Ascii.eqb c slash then EmptyString else String c EmptyString
      | t => String c t
      end
  end.

(** [p[:p.rfind('/') + 1]]: the prefix of [p] up to and including its last
    slash, empty when there is none. *)
Fixpoint head_to_last_slash (p : string) : string :=
  match p with
  | EmptyString => EmptyString
  | String c p' =>
      match head_to_last_slash p' with
      | EmptyString => if Ascii.eqb c slash then String c EmptyString else EmptyString
      | h => String c h
      end
  end.

(** [posixpath.dirname(p)]: a head made of slashes only is kept, any other
    head loses its trailing slashes. *)
Definition dirname (p : string) : string :=
  let head := head_to_last_slash p in
  match rstrip_slash head with
  | EmptyString => head
  | stripped => stripped
  end.

(** *** Path lookup: what [stat] and [mkdir] make of a path *)

(** Longest name of one entry and longest path (with its final NUL) that
    the kernel takes. *)
Definition NAME_MAX : nat := 255.
Definition PATH_MAX : nat := 4096.

Fixpoint has_nul (s : string) : bool :=
  match s with
  | EmptyString => false
  | String c s' => (Ascii.eqb c Ascii.zero || has_nul s')%bool
  end.

(** A path that a system call looks at: not empty, no NUL, within [PATH_MAX]. *)
Definition path_ok (p : string) : bool :=
  (negb (String.eqb p "") && negb (has_nul p) && (String.length p <? PATH_MAX)%nat)%bool.

(** A component that names no entry of its own: the empty one that a slash
    leaves at the start or at the end, [.] and [..]. *)
Definition is_dots (c : string) : bool := String.eqb c "..".

Definition is_alias (c : string) : bool :=
  (String.eqb c "" || String.eqb c "." || is_dots c)%bool.

(** Components are handled last first.  [drop_empty] forgets the slashes at
    the end of a path. *)
Fixpoint drop_empty (rcomps : list string) : list string :=
  match rcomps with
  | c :: r => if String.eqb c "" then drop_empty r else rcomps
  | [] => []
  end.

Definition join_slash (comps : list string) : string := String.concat "/" comps.

(** One step up from the place [names] (last name first): from the root to
    the root, from the working directory to the one above it. *)
Definition pop (abs : bool) (names : list string) : list string :=
  match names with
  | [] => if abs then [] else [".."]
  | c :: n => if is_dots c then ".." :: names else n
  end.

(** The place that the components lead to: the names from the root, or from
    the working directory, with [.], [..] and empty components resolved. *)
Fixpoint norm (abs : bool) (rcomps : list string) : list string :=
  match rcomps with
  | [] => []
  | c :: r =>
      if is_dots c then pop abs (norm abs r)
      else if is_alias c then norm abs r
      else c :: norm abs r
  end.

(** The spelling under which the node at a place is stored. *)
Definition key (abs : bool) (names : list string) : string :=
  (if abs then "/" else "") +:+ join_slash (rev names).

(** Whether the components lead to a directory, and whether the kernel can
    walk them at all.  The root and the working directory are always there;
    [d/], [d/.] and [d/..] are directories exactly when [d] is, and none of
    them can be walked when [d] is not one. *)
Fixpoint dir_at (fs : gmap string Node) (abs : bool) (rcomps : list string) : bool :=
  match rcomps with
  | [] => true
  | c :: r =>
      if is_alias c then dir_at fs abs r
      else
        (walkable fs abs r &&
         match fs !! key abs (c :: norm abs r) with
         | Some Dir => true
         | _ => false
         end)%bool
  end
with walkable (fs : gmap string Node) (abs : bool) (rcomps : list string) : bool :=
  match rcomps with
  | [] => true
  | c :: r => if is_alias c then dir_at fs abs r else walkable fs abs r
  end.

(** [os.path.isdir(p)]: false also where [os.stat] raises. *)
Definition isdir (fs : gmap string Node) (p : string) : bool :=
  (path_ok p && dir_at fs (startswith_slash p) (rev (split_slash p)))%bool.

(** ** SQLite: the fragment of the engine that the script exercises

    A database is its schema table in creation order: table name, column
    names, rows.  Duplicated names are representable, so that "the table is
    not created twice" is a statement and not a property of the type. *)

Module Sqlite.

Inductive SqlVal :=
| SNull
| SInt (n : Z)
| SText (s : string).

Definition Row := list SqlVal.

Record Table := { columns : list string; rows : list Row }.

Definition Database := list (string * Table).

Inductive Stmt :=
| CreateTableIfNotExists (name : string) (cols : list string)
| SelectWhereEq (col table lhs rhs : string).

(** *** Lexing: words separated by blanks; [( ) , ; =] stand alone *)

Definition is_blank (c : ascii) : bool :=
  (Ascii.eqb c " " || Ascii.eqb c "010" || Ascii.eqb c "009" || Ascii.eqb c "013")%char%bool.

Definition is_punct (c : ascii) : bool :=
  (Ascii.eqb c "(" || Ascii.eqb c ")" || Ascii.eqb c "," || Ascii.eqb c ";"
   || Ascii.eqb c "=")%char%bool.

Definition push (w : string) (ts : list string) : list string :=
  if String.eqb w "" then ts else w :: ts.

(** The word in progress at the front of the text, and the tokens after it. *)
Fixpoint lex (s : string) : string * list string :=
  match s with
  | EmptyString => ("", [])
  | String c s' =>
      let '(w, ts) := lex s' in
      if is_blank c then ("", push w ts)
      else if is_punct c then ("", String c "" :: push w ts)
      else (String c w, ts)
  end.

Definition tokenize (s : string) : list string :=
  let '(w, ts) := lex s in push w ts.

(** *** Parsing the two statement shapes *)

Fixpoint expect (kws ts : list string) : option (list string) :=
  match kws, ts with
  | [], _ => Some ts
  | k :: kws', t :: ts' => if String.eqb k t then expect kws' ts' else None
  | _ :: _, [] => None
  end.

(** Column definitions up to the closing parenthesis: the first word of
    each is the column name, its type and constraints are skipped.
    [fresh] says that the next word starts a definition. *)
Fixpoint parse_coldefs (ts : list string) (fresh : bool)
  : option (list string * list string) :=
  match ts with
  | [] => None
  | t :: ts' =>
      if String.eqb t ")" then (if fresh then None else Some ([], ts'))
      else if String.eqb t "," then (if fresh then None else parse_coldefs ts' true)
      else if fresh then
        match parse_coldefs ts' false with
        | Some (cols, rest) => Some (t :: cols, rest)
        | None => None
        end
      else parse_coldefs ts' false
  end.

Definition at_end (ts : list string) : bool :=
  match ts with
  | [] => true
  | [t] => String.eqb t ";"
  | _ => false
  end.

Definition parse_create (ts : list string) : option Stmt :=
  match expect ["CREATE"; "TABLE"; "IF"; "NOT"; "EXISTS"] ts with
  | Some (name :: ts1) =>
      match expect ["("] ts1 with
      | Some ts2 =>
          match parse_coldefs ts2 true with
          | Some (cols, rest) =>
              if at_end rest then Some (CreateTableIfNotExists name cols) else None
          | None => None
          end
      | None => None
      end
  | _ => None
  end.

Definition parse_select (ts : list string) : option Stmt :=
  match expect ["SELECT"] ts with
  | Some (col :: ts1) =>
      match expect ["FROM"] ts1 with
      | Some (table :: ts2) =>
          match expect ["WHERE"] ts2 with
          | Some (lhs :: ts3) =>
              match expect ["="] ts3 with
              | Some (rhs :: rest) =>
                  if at_end rest then Some (SelectWhereEq col table lhs rhs) else None
              | _ => None
              end
          | _ => None
          end
      | _ => None
      end
  | _ => None
  end.

Definition parse (sql : string) : option Stmt :=
  let ts := tokenize sql in
  match parse_create ts with
  | Some st => Some st
  | None => parse_select ts
  end.

(** *** Evaluation *)

(** SQLite compares the names of tables and columns without regard to the
    case of ASCII letters. *)
Definition lower_ascii (c : ascii) : ascii :=
  let n := N_of_ascii c in
  if ((65 <=? n) && (n <=? 90))%N%bool then ascii_of_N (n + 32) else c.

Fixpoint lower (s : string) : string :=
  match s with
  | EmptyString => EmptyString
  | String c s' => String (lower_ascii c) (lower s')
  end.

Definition name_eqb (a b : string) : bool := String.eqb (lower a) (lower b).

Fixpoint find_table (name : string) (db : Database) : option Table :=
  match db with
  | [] => None
  | (n, t) :: db' => if name_eqb n name then Some t else find_table name db'
  end.

Fixpoint column_index (c : string) (cols : list string) : option nat :=
  match cols with
  | [] => None
  | c' :: cols' =>
      if name_eqb c' c then Some O
      else match column_index c cols' with
           | Some i => Some (S i)
           | None => None
           end
  end.

(** SQL equality as a WHERE condition: NULL is never equal to anything. *)
Definition val_eqb (a b : SqlVal) : bool :=
  match a, b with
  | SInt m, SInt n => Z.eqb m n
  | SText s, SText t => String.eqb s t
  | _, _ => false
  end.

Definition cell (r : Row) (i : nat) : SqlVal := nth i r SNull.

(** A bare word in an expression is a column name; a word that names no
    column of the table is an error, it is never read as a variable of the
    calling program. *)
Definition exec (st : Stmt) (db : Database) : exn + (Database * list Row) :=
  match st with
  | CreateTableIfNotExists name cols =>
      match find_table name db with
      | Some _ => inr (db, [])
      | None => inr ((db ++ [(name, {| columns := cols; rows := [] |})])%list, [])
      end
  | SelectWhereEq col table lhs rhs =>
      match find_table table db with
      | None => inl (OperationalError ("no such table: " +:+ table))
      | Some t =>
          match column_index col (columns t) with
          | None => inl (OperationalError ("no such column: " +:+ col))
          | Some ic =>
              match column_index lhs (columns t) with
              | None => inl (OperationalError ("no such column: " +:+ lhs))
              | Some il =>
                  match column_index rhs (columns t) with
                  | None => inl (OperationalError ("no such column: " +:+ rhs))
                  | Some ir =>
                      inr (db,
                           map (fun r => [cell r ic])
                               (List.filter (fun r => val_eqb (cell r il) (cell r ir))
                                            (rows t)))
                  end
              end
          end
      end
  end.

(** [cursor.execute(sql)] on a connection to [db]. *)
Definition execute (db : Database) (sql : string) : exn + (Database * list Row) :=
  match parse sql with
  | Some st => exec st db
  | None => inl (OperationalError "syntax error")
  end.


End Sqlite.

Import Sqlite.

(** ** The world the script runs in *)

Record Request := { req_url : string; req_params : list (string * string) }.

Record Response := { status_code : Z; content : bytes }.

Record Datetime := { dt_year : Z; dt_month : Z; dt_day : Z }.

Record World := {
  w_argv : list string;                      (* sys.argv *)
  w_today : string;                          (* date.today().isoformat() *)
  w_net : Request -> exn + Response;         (* what the network answers *)
  w_sent : list Request;                     (* requests sent so far, oldest first *)
  w_fs : gmap string Node;                   (* directories and files *)
  w_dbs : gmap string Database;              (* SQLite files, by path *)
  w_stdout : list (list PyVal);              (* one entry per print call *)
}.

Definition set_sent (l : list Request) (w : World) : World :=
  {| w_argv := w_argv w; w_today := w_today w; w_net := w_net w; w_sent := l;
     w_fs := w_fs w; w_dbs := w_dbs w; w_stdout := w_stdout w |}.

Definition set_fs (fs : gmap string Node) (w : World) : World :=
  {| w_argv := w_argv w; w_today := w_today w; w_net := w_net w; w_sent := w_sent w;
     w_fs := fs; w_dbs := w_dbs w; w_stdout := w_stdout w |}.

Definition set_dbs (dbs : gmap string Database) (w : World) : World :=
  {| w_argv := w_argv w; w_today := w_today w; w_net := w_net w; w_sent := w_sent w;
     w_fs := w_fs w; w_dbs := dbs; w_stdout := w_stdout w |}.

Definition set_stdout (out : list (list PyVal)) (w : World) : World :=
  {| w_argv := w_argv w; w_today := w_today w; w_net := w_net w; w_sent := w_sent w;
     w_fs := w_fs w; w_dbs := w_dbs w; w_stdout := out |}.

(** The database stored at [p]; a file that does not exist yet is an empty
    database, which is what connecting to it gives. *)
Definition db_at (w : World) (p : string) : Database :=
  default [] (w_dbs w !! p).

(** ** The monad: state, and exceptions that keep the state reached *)

Definition M (A : Type) : Type := World -> result A * World.

Definition ret {A} (a : A) : M A := fun w => (Return a, w).

Definition raise {A} (e : exn) : M A := fun w => (Raise e, w).

Definition bind {A B} (m : M A) (k : A -> M B) : M B :=
  fun w =>
    match m w with
    | (Return a, w') => k a w'
    | (Raise e, w') => (Raise e, w')
    end.

Declare Scope py_scope.
Delimit Scope py_scope with py.
Notation "x <- c1 ;; c2" := (bind c1 (fun x => c2))
  (at level 100, c1 at next level, right associativity) : py_scope.
Notation "c1 ;; c2" := (bind c1 (fun _ => c2))
  (at level 100, right associativity) : py_scope.
Local Open Scope py_scope.

(** ** The library calls of the script *)

(** What the interpreter provides and the script does not define: the hash,
    the date parser and the SQL engine.  The script's functions are written
    over any implementation of them.  The API key, a literal in
    [get_apod_info], is a secret of the author's: it is not repeated here but
    taken from this interface, and nothing below depends on its value. *)
Class Runtime := {
  sha256 : bytes -> Digest;
  strptime : string -> string -> exn + Datetime;
  execute : Database -> string -> exn + (Database * list Row);
  nasa_api_key : string;
}.

Definition sys_argv : M (list string) := fun w => (Return (w_argv w), w).

(** [l[i]] for [i >= 0]. *)
Definition py_index {A} (l : list A) (i : nat) : M A :=
  match l !! i with
  | Some a => ret a
  | None => raise IndexError
  end.

Definition print (args : list PyVal) : M unit :=
  fun w => (Return tt, set_stdout (w_stdout w ++ [args])%list w).

Definition sys_exit {A} (arg : PyVal) : M A := raise (SystemExit arg).

Definition path_isdir (p : string) : M bool := fun w => (Return (isdir (w_fs w) p), w).

(** The disk is [w_fs] together with [w_dbs]: a SQLite file is an entry of
    [w_dbs], every other file and every directory is a node of [w_fs]. *)

(** Something stands at [q]. *)
Definition taken (w : World) (q : string) : bool :=
  match w_fs w !! q, w_dbs w !! q with
  | None, None => false
  | _, _ => true
  end.

(** A regular file stands at [q]. *)
Definition file_at (w : World) (q : string) : bool :=
  match w_fs w !! q, w_dbs w !! q with
  | Some (File _), _ => true
  | None, Some _ => true
  | _, _ => false
  end.

(** What a call on [p] raises when the components [rcomps] before the last
    one lead to no directory. *)
Definition no_directory (w : World) (abs : bool) (rcomps : list string) (p : string) : exn :=
  if file_at w (key abs (norm abs rcomps)) then NotADirectoryError p
  else FileNotFoundError p.

(** The spelling under which [os.mkdir(p)] stores the directory: the place
    that [p] leads to. *)
Definition mkdir_key (p : string) : string :=
  key (startswith_slash p) (norm (startswith_slash p) (drop_empty (rev (split_slash p)))).

(** Why [os.mkdir(p)] fails, when it does. *)
Definition mkdir_error (w : World) (p : string) : option exn :=
  if has_nul p then Some (ValueError "embedded null byte")
  else if String.eqb p "" then Some (FileNotFoundError p)
  else if (PATH_MAX <=? String.length p)%nat then
    Some (OSError "[Errno 36] File name too long")
  else
    match drop_empty (rev (split_slash p)) with
    | [] => Some (FileExistsError p)
    | c :: r =>
        if negb (dir_at (w_fs w) (startswith_slash p) r) then
          Some (no_directory w (startswith_slash p) r p)
        else if is_alias c then Some (FileExistsError p)
        else if (NAME_MAX <? String.length c)%nat then
          Some (OSError "[Errno 36] File name too long")
        else if taken w (mkdir_key p) then Some (FileExistsError p)
        else None
    end.

(** [os.mkdir(p)]. *)
Definition mkdir (p : string) : M unit :=
  fun w =>
    match mkdir_error w p with
    | Some e => (Raise e, w)
    | None => (Return tt, set_fs (<[mkdir_key p := Dir]> (w_fs w)) w)
    end.

Definition date_today_isoformat : M string := fun w => (Return (w_today w), w).

(** [requests.get(url, params=params)]: the request goes out, then the network
    answers or the transport fails. *)
Definition requests_get (url : string) (params : list (string * string)) : M Response :=
  fun w =>
    let rq := {| req_url := url; req_params := params |} in
    let w' := set_sent (w_sent w ++ [rq])%list w in
    match w_net w rq with
    | inr resp => (Return resp, w')
    | inl e => (Raise e, w')
    end.

(** [sha256(data)] where [data] is a bytes object or [None]. *)
Definition hashlib_sha256 `{Runtime} (data : option bytes) : M Digest :=
  match data with
  | Some b => ret (sha256 b)
  | None => raise (TypeError "object supporting the buffer API required")
  end.

(** [len(data)] where [data] is a bytes object or [None]. *)
Definition py_len (data : option bytes) : M Z :=
  match data with
  | Some b => ret (Z.of_nat (length b))
  | None => raise (TypeError "object of type 'NoneType' has no len()")
  end.

(** Truth value of a [str]: false exactly for the empty string. *)
Definition truthy (s : string) : bool := negb (String.eqb s "").

Definition unable_to_open : exn := OperationalError "unable to open database file".

(** Longest path that SQLite's Unix layer takes. *)
Definition SQLITE_MAX_PATHNAME : nat := 512.

(** The names that SQLite reads as a database of its own, private to the
    connection and gone with it: in memory, or in a temporary file. *)
Definition transient (p : string) : bool :=
  (String.eqb p "" || String.eqb p ":memory:")%bool.

(** Why [sqlite3.connect(p)] fails, when it does.  The file is opened at
    once, so [p] must name a file that is there, or a new entry of a
    directory that is. *)
Definition connect_error (w : World) (p : string) : option exn :=
  if transient p then None
  else if has_nul p then Some (ValueError "embedded null byte")
  else if (SQLITE_MAX_PATHNAME <=? String.length p)%nat then Some unable_to_open
  else
    match rev (split_slash p) with
    | [] => Some unable_to_open
    | c :: r =>
        if is_alias c then Some unable_to_open
        else if negb (dir_at (w_fs w) (startswith_slash p) r) then Some unable_to_open
        else
          match w_dbs w !! p, w_fs w !! p with
          | Some _, _ => None
          | None, Some Dir => Some unable_to_open
          | None, Some (File _) => None
          | None, None =>
              if (NAME_MAX <? String.length c)%nat then Some unable_to_open else None
          end
    end.

(** [sqlite3.connect(db_path)]: the file is created, empty, when nothing was
    there; the connection is known by its path. *)
Definition sqlite3_connect (db_path : string) : M string :=
  fun w =>
    match connect_error w db_path with
    | Some e => (Raise e, w)
    | None =>
        (Return db_path,
         if transient db_path then w
         else match w_dbs w !! db_path, w_fs w !! db_path with
              | None, None => set_dbs (<[db_path := []]> (w_dbs w)) w
              | _, _ => w
              end)
    end.

(** A file that is not empty and is not a SQLite database. *)
Definition not_a_database (w : World) (conn : string) : bool :=
  (negb (transient conn) &&
   match w_dbs w !! conn, w_fs w !! conn with
   | None, Some (File (_ :: _)) => true
   | _, _ => false
   end)%bool.

(** The database that a new connection to [p] works on. *)
Definition open_db (w : World) (p : string) : Database :=
  if transient p then [] else db_at w p.

(** The world once the database of the connection [p] has become [db]. *)
Definition store_db (p : string) (db : Database) (w : World) : World :=
  if transient p then w else set_dbs (<[p := db]> (w_dbs w)) w.

(** [connection.cursor().execute(sql)], for the first statement of a
    connection, which is the only one the script ever sends.  The statement
    takes effect on the file at once: the script never opens a transaction
    that would need a commit (table creation is not held back by the sqlite3
    module). *)
Definition cursor_execute `{Runtime} (conn : string) (sql : string) : M (list Row) :=
  fun w =>
    if not_a_database w conn then (Raise (DatabaseError "file is not a database"), w)
    else
      match execute (open_db w conn) sql with
      | inr (db', rs) => (Return rs, store_db conn db' w)
      | inl e => (Raise e, w)
      end.

(** Why connecting to [p] and running a first statement on it fails before
    the statement is looked at, when it does. *)
Definition store_error (w : World) (p : string) : option exn :=
  match connect_error w p with
  | Some e => Some e
  | None =>
      if not_a_database w p then Some (DatabaseError "file is not a database") else None
  end.

(** ** The script *)

Section Script.

Context `{RT : Runtime}.

Definition get_image_dir_path : M string :=
  argv <- sys_argv ;;
  if (2 <=? length argv)%nat then
    dir_path <- py_index argv 1 ;;
    is_dir <- path_isdir dir_path ;;
    if is_dir then
      print [VStr "Images directory:"; VStr dir_path] ;;
      ret dir_path
    else
      print [VStr "Error: Non-existent directory"; VStr dir_path] ;;
      sys_exit (VStr "Script execution aborted")
  else
    print [VStr "Error: Missing path parameter."] ;;
    sys_exit (VStr "Script execution aborted").

Definition get_apod_date : M string :=
  argv <- sys_argv ;;
  apod_date <-
    (if (3 <=? length argv)%nat then
       apod_date <- py_index argv 2 ;;
       match strptime apod_date "%Y-%m-%d" with
       | inr _ => ret apod_date
       | inl (ValueError _) =>
           print [VStr "Error: Incorrect date format; Should be YYYY-MM-DD"] ;;
           sys_exit (VStr "Script execution aborted")
       | inl e => raise e
       end
     else
       date_today_isoformat) ;;
  print [VStr "APOD date:"; VStr apod_date] ;;
  ret apod_date.

(** [image_url.split('/')[-1]]. *)
Definition last_segment (image_url : string) : string :=
  List.last (split_slash image_url) "".

Definition get_image_path (image_url dir_path : string) : M string :=
  let image_link := last_segment image_url in
  let img_dir := path_join dir_path image_link in
  is_dir <- path_isdir img_dir ;;
  (if negb is_dir then mkdir img_dir else ret tt) ;;
  ret img_dir.

Definition get_apod_info (date : string) : M (option (list (string * string))) :=
  let api_key := nasa_api_key in
  let params := [("api_key", api_key); ("date", date); ("thumbs", "True")] in
  let URL := "https://api.nasa.gov/planetary/apod" in
  response <- requests_get URL params ;;
  if status_code response =? 200 then
    print [VStr "success!"] ;;
    ret (Some params)
  else
    print [VStr "failed. Error code"; VInt (status_code response)] ;;
    ret None.

Definition print_apod_info (image_url image_path : string) (image_size : Z)
    (image_sha256 : Digest) : M unit :=
  print [VStr "Saved from:"; VStr image_url] ;;
  print [VStr "Saved at:"; VStr image_path] ;;
  print [VStr "Size:"; VInt image_size; VStr "bytes"] ;;
  print [VStr "SHA-256:"; VHash image_sha256] ;;
  ret tt.

(** Returns the body of the response, or [None] after the failure message. *)
Definition download_apod_image (image_url : string) : M (option bytes) :=
  print [VStr "Downloading image from URL..."] ;;
  response <- requests_get image_url [] ;;
  if status_code response =? 200 then
    print [VStr "success!"] ;;
    ret (Some (content response))
  else
    print [VStr "failed. Response code"; VInt (status_code response)] ;;
    ret None.

(** [return #TODO] *)
Definition save_image_file (image_msg : option bytes) (image_path : string) : M unit :=
  ret tt.

Definition apodTable : string :=
"CREATE TABLE IF NOT EXISTS apod_images (
            date text NOT NULL,
            size integer NOT NULL,
            sha256 text NOT NULL,
            downloaded_at datetime NOT NULL
    );".

Definition create_image_db (db_path : string) : M unit :=
  myConnection <- sqlite3_connect db_path ;;
  cursor_execute myConnection apodTable ;;
  ret tt.

(** [return #TODO] *)
Definition add_image_to_db (db_path image_path : string) (image_size : Z)
    (image_sha256 : Digest) : M unit :=
  ret tt.

Definition selectStatement : string :=
"SELECT date FROM apod_images
    WHERE sha256 = image_sha256".

(** The result of the query is dropped; the test is on the statement's text. *)
Definition image_already_in_db (db_path : string) (image_sha256 : Digest) : M bool :=
  myConnection <- sqlite3_connect db_path ;;
  cursor_execute myConnection selectStatement ;;
  if truthy selectStatement then ret true else ret false.

(** [return #TODO] *)
Definition set_desktop_background_image (image_path : string) : M unit :=
  ret tt.

Definition image_url_const : string := "https://apod.nasa.gov/apod/astropix.html".

(** Lines 45-49 of [main] on their own: what is downloaded and where it
    goes. *)
Definition fetch_image (image_dir_path : string)
  : M (string * option bytes * Digest * Z * string) :=
  let image_url := image_url_const in
  image_msg <- download_apod_image image_url ;;
  image_sha256 <- hashlib_sha256 image_msg ;;
  image_size <- py_len image_msg ;;
  image_path <- get_image_path image_url image_dir_path ;;
  ret (image_url, image_msg, image_sha256, image_size, image_path).

(** Lines 55-57 of [main] on their own: look up, then persist when the
    image is new. *)
Definition cache_image (db_path : string) (image_msg : option bytes)
    (image_path : string) (image_size : Z) (image_sha256 : Digest) : M unit :=
  known <- image_already_in_db db_path image_sha256 ;;
  if negb known then
    save_image_file image_msg image_path ;;
    add_image_to_db db_path image_path image_size image_sha256
  else ret tt.

Definition main : M unit :=
  image_dir_path <- get_image_dir_path ;;
  let db_path := path_join image_dir_path "apod_images.db" in
  apod_date <- get_apod_date ;;
  create_image_db db_path ;;
  apod_info_dict <- get_apod_info apod_date ;;
  let image_url := "https://apod.nasa.gov/apod/astropix.html" in
  image_msg <- download_apod_image image_url ;;
  image_sha256 <- hashlib_sha256 image_msg ;;
  image_size <- py_len image_msg ;;
  image_path <- get_image_path image_url image_dir_path ;;
  print_apod_info image_url image_path image_size image_sha256 ;;
  known <- image_already_in_db db_path image_sha256 ;;
  (if negb known then
     save_image_file image_msg image_path ;;
     add_image_to_db db_path image_path image_size image_sha256
   else ret tt) ;;
  set_desktop_background_image image_path.

End Script.

(** ** The interpreter's side: SHA-256, [datetime.strptime], SQLite *)

(** *** SHA-256 (FIPS 180-4) on 32-bit words held in [Z] *)

Module SHA256.

Definition mask32 : Z := 0xffffffff.

Definition w32 (x : Z) : Z := x mod 2 ^ 32.

Definition add32 (a b : Z) : Z := w32 (a + b).

Definition rotr (n x : Z) : Z :=
  Z.lor (Z.shiftr x n) (w32 (Z.shiftl x (32 - n))).

Definition not32 (x : Z) : Z := Z.lxor x mask32.

Definition Ch (x y z : Z) : Z := Z.lxor (Z.land x y) (Z.land (not32 x) z).

Definition Maj (x y z : Z) : Z :=
  Z.lxor (Z.lxor (Z.land x y) (Z.land x z)) (Z.land y z).

Definition Sigma0 (x : Z) : Z := Z.lxor (Z.lxor (rotr 2 x) (rotr 13 x)) (rotr 22 x).
Definition Sigma1 (x : Z) : Z := Z.lxor (Z.lxor (rotr 6 x) (rotr 11 x)) (rotr 25 x).
Definition sigma0 (x : Z) : Z := Z.lxor (Z.lxor (rotr 7 x) (rotr 18 x)) (Z.shiftr x 3).
Definition sigma1 (x : Z) : Z := Z.lxor (Z.lxor (rotr 17 x) (rotr 19 x)) (Z.shiftr x 10).

(** The round constants and the initial state are defined as the standard
    defines them: the first 32 bits of the fractional parts of the cube roots
    of the first 64 primes, and of the square roots of the first 8. *)

Definition is_prime (p : Z) : bool :=
  (1 <? p) && forallb (fun d => negb (p mod d =? 0))
                      (List.filter (fun d => d * d <=? p) (map Z.of_nat (seq 2 18))).

Definition primes : list Z := List.filter is_prime (map Z.of_nat (seq 2 310)).

(** The largest [x] below [2 ^ k] above [acc] with [x ^ 3 <= n], bit by bit. *)
Fixpoint icbrt_bits (k : nat) (n acc : Z) : Z :=
  match k with
  | O => acc
  | S k' =>
      let c := acc + 2 ^ Z.of_nat k' in
      if c * c * c <=? n then icbrt_bits k' n c else icbrt_bits k' n acc
  end.

Definition icbrt (n : Z) : Z := icbrt_bits 40 n 0.

Definition K : list Z :=
  Eval vm_compute in map (fun p => w32 (icbrt (Z.shiftl p 96))) primes.

Definition H0 : list Z :=
  Eval vm_compute in map (fun p => w32 (Z.sqrt (Z.shiftl p 64))) (firstn 8 primes).

Definition byte_to_Z (b : Byte.byte) : Z := Z.of_N (Byte.to_N b).

Definition Z_to_byte (x : Z) : Byte.byte :=
  match Byte.of_N (Z.to_N (x mod 256)) with
  | Some b => b
  | None => Byte.x00
  end.

(** The [n] low bytes of [x], most significant first. *)
Fixpoint be_bytes (n : nat) (x : Z) : list Z :=
  match n with
  | O => []
  | S n' => (Z.shiftr x (8 * Z.of_nat n') mod 256) :: be_bytes n' x
  end.

(** Message, one 0x80 byte, zeros up to 56 modulo 64, bit length on 8 bytes. *)
Definition pad (msg : list Z) : list Z :=
  let len := Z.of_nat (length msg) in
  let zeros := Z.to_nat ((55 - len) mod 64) in
  (msg ++ [0x80] ++ repeat 0 zeros ++ be_bytes 8 (8 * len))%list.

Fixpoint words (bs : list Z) : list Z :=
  match bs with
  | b0 :: b1 :: b2 :: b3 :: rest =>
      (Z.shiftl b0 24 + Z.shiftl b1 16 + Z.shiftl b2 8 + b3) :: words rest
  | _ => []
  end.

Fixpoint chunks (fuel : nat) (ws : list Z) : list (list Z) :=
  match fuel, ws with
  | _, [] => []
  | O, _ => []
  | S fuel', _ => firstn 16 ws :: chunks fuel' (skipn 16 ws)
  end.

Definition at_ (w : list Z) (i : nat) : Z := nth i w 0.

(** Extends the message schedule by [n] words. *)
Fixpoint schedule (n : nat) (w : list Z) : list Z :=
  match n with
  | O => w
  | S n' =>
      let t := length w in
      let x := add32 (add32 (sigma1 (at_ w (t - 2))) (at_ w (t - 7)))
                     (add32 (sigma0 (at_ w (t - 15))) (at_ w (t - 16))) in
      schedule n' (w ++ [x])%list
  end.

Definition state : Type := Z * Z * Z * Z * Z * Z * Z * Z.

Definition round (s : state) (kw : Z * Z) : state :=
  let '(a, b, c, d, e, f, g, h) := s in
  let t1 := add32 (add32 (add32 h (Sigma1 e)) (add32 (Ch e f g) (fst kw))) (snd kw) in
  let t2 := add32 (Sigma0 a) (Maj a b c) in
  (add32 t1 t2, a, b, c, add32 d t1, e, f, g).

Definition compress (s : state) (block : list Z) : state :=
  let w := schedule 48 block in
  let '(a, b, c, d, e, f, g, h) := fold_left round (combine K w) s in
  let '(a0, b0, c0, d0, e0, f0, g0, h0) := s in
  (add32 a0 a, add32 b0 b, add32 c0 c, add32 d0 d,
   add32 e0 e, add32 f0 f, add32 g0 g, add32 h0 h).

Definition init : state :=
  (at_ H0 0, at_ H0 1, at_ H0 2, at_ H0 3, at_ H0 4, at_ H0 5, at_ H0 6, at_ H0 7).

Definition digest (msg : list Byte.byte) : list Byte.byte :=
  let ws := words (pad (map byte_to_Z msg)) in
  let '(a, b, c, d, e, f, g, h) := fold_left compress (chunks (length ws) ws) init in
  map Z_to_byte (flat_map (be_bytes 4) [a; b; c; d; e; f; g; h]).

End SHA256.

(** *** [datetime.strptime(s, '%Y-%m-%d')] on ASCII text *)

Module Strptime.

Definition digit (c : ascii) : option Z :=
  let n := Z.of_N (N_of_ascii c) in
  if ((48 <=? n) && (n <=? 57))%bool then Some (n - 48) else None.

Definition is_dash (c : ascii) : bool := Ascii.eqb c "-".

(** [\d\d\d\d] *)
Definition year (s : string) : option (Z * string) :=
  match s with
  | String a (String b (String c (String d rest))) =>
      match digit a, digit b, digit c, digit d with
      | Some x, Some y, Some z, Some t => Some (1000 * x + 100 * y + 10 * z + t, rest)
      | _, _, _, _ => None
      end
  | _ => None
  end.

(** [1[0-2]|0[1-9]|[1-9]], alternatives in this order. *)
Definition month (s : string) : option (Z * string) :=
  match s with
  | String a rest =>
      let two :=
        match rest with
        | String b rest' =>
            match digit a, digit b with
            | Some 1, Some y => if y <=? 2 then Some (10 + y, rest') else None
            | Some 0, Some y => if 1 <=? y then Some (y, rest') else None
            | _, _ => None
            end
        | EmptyString => None
        end in
      match two with
      | Some r => Some r
      | None =>
          match digit a with
          | Some x => if 1 <=? x then Some (x, rest) else None
          | None => None
          end
      end
  | EmptyString => None
  end.

(** [3[0-1]|[1-2]\d|0[1-9]|[1-9]| [1-9]], alternatives in this order. *)
Definition day (s : string) : option (Z * string) :=
  match s with
  | String a rest =>
      let two :=
        match rest with
        | String b rest' =>
            match digit a, digit b with
            | Some 3, Some y => if y <=? 1 then Some (30 + y, rest') else None
            | Some 1, Some y => Some (10 + y, rest')
            | Some 2, Some y => Some (20 + y, rest')
            | Some 0, Some y => if 1 <=? y then Some (y, rest') else None
            | None, Some y =>
                if (Ascii.eqb a " " && (1 <=? y))%bool then Some (y, rest') else None
            | _, _ => None
            end
        | EmptyString => None
        end in
      match two with
      | Some r => Some r
      | None =>
          match digit a with
          | Some x => if 1 <=? x then Some (x, rest) else None
          | None => None
          end
      end
  | EmptyString => None
  end.

Definition is_leap (y : Z) : bool :=
  ((y mod 4 =? 0) && (negb (y mod 100 =? 0) || (y mod 400 =? 0)))%bool.

Definition days_in_month (y m : Z) : Z :=
  if m =? 2 then (if is_leap y then 29 else 28)
  else if ((m =? 4) || (m =? 6) || (m =? 9) || (m =? 11))%bool then 30
  else 31.

Definition skip_dash (s : string) : option string :=
  match s with
  | String c rest => if is_dash c then Some rest else None
  | EmptyString => None
  end.

Definition no_match : exn := ValueError "time data does not match format".

Definition parse_Ymd (s : string) : exn + Datetime :=
  match year s with
  | None => inl no_match
  | Some (y, s1) =>
      match skip_dash s1 with
      | None => inl no_match
      | Some s2 =>
          match month s2 with
          | None => inl no_match
          | Some (m, s3) =>
              match skip_dash s3 with
              | None => inl no_match
              | Some s4 =>
                  match day s4 with
                  | None => inl no_match
                  | Some (d, EmptyString) =>
                      if y <? 1 then inl (ValueError "year is out of range")
                      else if days_in_month y m <? d
                      then inl (ValueError "day is out of range for month")
                      else inr {| dt_year := y; dt_month := m; dt_day := d |}
                  | Some (_, String _ _) => inl (ValueError "unconverted data remains")
                  end
              end
          end
      end
  end.

(** Only the format that the script uses is covered. *)
Definition strptime (s format : string) : exn + Datetime :=
  if String.eqb format "%Y-%m-%d" then parse_Ymd s
  else inl (ValueError "format not covered").

End Strptime.

#[export] Instance CPython : Runtime := {|
  sha256 := SHA256.digest;
  strptime := Strptime.strptime;
  execute := Sqlite.execute;
  nasa_api_key := "DEMO_KEY";
|}.

(** ** Auxiliary definitions: stages of [main], repetition, sample machines *)

(** Lines 32-42 of [main] on their own: arguments, schema, API information. *)
Definition main_setup `{Runtime} : M (string * string * string) :=
  image_dir_path <- get_image_dir_path ;;
  let db_path := path_join image_dir_path "apod_images.db" in
  apod_date <- get_apod_date ;;
  create_image_db db_path ;;
  apod_info_dict <- get_apod_info apod_date ;;
  ret (image_dir_path, db_path, apod_date).

(** Lines 52-60 of [main] on their own. *)
Definition main_finish `{Runtime} (db_path : string)
    (fetched : string * option bytes * Digest * Z * string) : M unit :=
  let '(image_url, image_msg, image_sha256, image_size, image_path) := fetched in
  print_apod_info image_url image_path image_size image_sha256 ;;
  cache_image db_path image_msg image_path image_size image_sha256 ;;
  set_desktop_background_image image_path.

Definition main_staged `{Runtime} : M unit :=
  setup <- main_setup ;;
  fetched <- fetch_image (fst (fst setup)) ;;
  main_finish (snd (fst setup)) fetched.

(** [m] called [n] times in a row; the first exception ends the sequence. *)
Fixpoint repeat_call (n : nat) (m : M unit) : M unit :=
  match n with
  | O => ret tt
  | S n' => m ;; repeat_call n' m
  end.

(** Two worlds with the same network, files and databases; the command line,
    the clock, the log of requests and the output may differ. *)
Definition same_store (w1 w2 : World) : Prop :=
  w_net w1 = w_net w2 /\ w_fs w1 = w_fs w2 /\ w_dbs w1 = w_dbs w2.

(** A printed line that starts with the word [Error:]. *)
Definition is_error_line (line : list PyVal) : bool :=
  match line with
  | VStr s :: _ => String.prefix "Error:" s
  | _ => false
  end.

Definition serve (code : Z) (body : bytes) : Request -> exn + Response :=
  fun _ => inr {| status_code := code; content := body |}.

Definition abc : bytes := [Byte.x61; Byte.x62; Byte.x63].

(** The directories [/tmp] and [/tmp/x] under the root, and nothing else. *)
Definition sample_fs : gmap string Node := <["/tmp/x" := Dir]> {[ "/tmp" := Dir ]}.

(** A machine with these directories, no database yet, nothing printed. *)
Definition sample_world (argv : list string) (net : Request -> exn + Response) : World :=
  {| w_argv := argv; w_today := "2022-04-27"; w_net := net; w_sent := [];
     w_fs := sample_fs; w_dbs := ∅; w_stdout := [] |}.

(** A name of 300 letters. *)
Definition long_name : string := String.concat "" (repeat "a" 300).

(** The columns that [apodTable] declares. *)
Definition apod_columns : list string := ["date"; "size"; "sha256"; "downloaded_at"].

(** An engine that accepts every statement and finds no row. *)
Definition accepting_engine : Runtime := {|
  sha256 := SHA256.digest;
  strptime := Strptime.strptime;
  execute := fun db _ => inr (db, []);
  nasa_api_key := "DEMO_KEY";
|}.

(** The request that [requests.get(url)] sends. *)
Definition image_request (url : string) : Request := {| req_url := url; req_params := [] |}.

(** What [exit('Script execution aborted')] raises. *)
Definition aborted : exn := SystemExit (VStr "Script execution aborted").

(** A computation whose result and whose effect on network, files and
    databases are determined by network, files and databases alone. *)
Definition insensitive {A} (m : M A) : Prop :=
  forall w1 w2, same_store w1 w2 ->
    fst (m w1) = fst (m w2) /\ same_store (snd (m w1)) (snd (m w2)).

(** The sample machine when the script is given [/tmp/x] and [date]. *)
Definition run_on (date : string) : World :=
  sample_world ["apod_desktop.py"; "/tmp/x"; date] (serve 200 abc).

(** *** Further auxiliary definitions: effects and inputs of a run *)

(** The request that [get_apod_info date] sends. *)
Definition api_request `{Runtime} (date : string) : Request :=
  {| req_url := "https://api.nasa.gov/planetary/apod";
     req_params := [("api_key", nasa_api_key); ("date", date); ("thumbs", "True")] |}.

(** The date a run works with: the third word of the command line, or the
    clock's date when there is none. *)
Definition run_date (w : World) : string := default (w_today w) (w_argv w !! 2%nat).

(** The table that [apodTable] creates. *)
Definition empty_apod_table : string * Table :=
  ("apod_images", {| columns := apod_columns; rows := [] |}).

(** [m] leaves the component [f] of the world as it found it, also when it
    raises. *)
Definition keeps {A X} (f : World -> X) (m : M A) : Prop :=
  forall w, f (snd (m w)) = f w.

(** Two worlds that agree on the directory and date arguments, the clock, the
    files, the databases, the requests sent so far and the network's answer
    for the image; the other arguments, the output so far and the network's
    other answers may differ. *)
Definition same_inputs (w1 w2 : World) : Prop :=
  w_argv w1 !! 1%nat = w_argv w2 !! 1%nat /\
  w_argv w1 !! 2%nat = w_argv w2 !! 2%nat /\
  w_today w1 = w_today w2 /\
  w_net w1 (image_request image_url_const) = w_net w2 (image_request image_url_const) /\
  w_sent w1 = w_sent w2 /\
  w_fs w1 = w_fs w2 /\
  w_dbs w1 = w_dbs w2.

(** A computation that gives the same result and related worlds on worlds
    related by [same_inputs]. *)
Definition reads_inputs_only {A} (m : M A) : Prop :=
  forall w1 w2, same_inputs w1 w2 ->
    fst (m w1) = fst (m w2) /\ same_inputs (snd (m w1)) (snd (m w2)).

(** A network that answers the API request with [api] and every other
    request with the status 200 and the body [body]. *)
Definition serve_api (api : Response) (body : bytes) : Request -> exn + Response :=
  fun rq =>
    if String.eqb (req_url rq) "https://api.nasa.gov/planetary/apod" then inr api
    else inr {| status_code := 200; content := body |}.


(** The written form [YYYY-MM-DD] that the error message and the docstring
    of [get_apod_date] name: four digits, a dash, two digits, a dash, two
    digits, and nothing else. *)
Definition is_YYYY_MM_DD (s : string) : bool :=
  match s with
  | String y1 (String y2 (String y3 (String y4 (String s1 (String m1 (String m2
      (String s2 (String d1 (String d2 EmptyString))))))))) =>
      (forallb (fun c => bool_decide (is_Some (Strptime.digit c)))
         [y1; y2; y3; y4; m1; m2; d1; d2]
       && Strptime.is_dash s1 && Strptime.is_dash s2)%bool
  | _ => false
  end.


(** * Properties *)

(** ** Strings and paths *)

Example split_slash_url :
  split_slash "https://apod.nasa.gov/apod/astropix.html"
  = [ "https:"; ""; "apod.nasa.gov"; "apod"; "astropix.html" ].
Proof. reflexivity. Qed.

Example path_join_plain : path_join "/tmp/x" "astropix.html" = "/tmp/x/astropix.html".
Proof. reflexivity. Qed.

Example path_join_trailing : path_join "/tmp/x/" "astropix.html" = "/tmp/x/astropix.html".
Proof. reflexivity. Qed.

Example dirname_plain : dirname "/tmp/x/astropix.html" = "/tmp/x".
Proof. reflexivity. Qed.

Example dirname_root : dirname "/x" = "/".
Proof. reflexivity. Qed.

Example sha256_constants :
  length SHA256.primes = 64%nat /\ List.last SHA256.primes 0 = 311 /\
  nth 0 SHA256.K 0 = 0x428a2f98 /\ nth 63 SHA256.K 0 = 0xc67178f2 /\
  nth 0 SHA256.H0 0 = 0x6a09e667 /\ nth 7 SHA256.H0 0 = 0x5be0cd19.
Proof. vm_compute. repeat split. Qed.

(** The test vector of the standard for the message [abc]. *)
Example sha256_abc :
  map SHA256.byte_to_Z (SHA256.digest abc)
  = [ 0xba; 0x78; 0x16; 0xbf; 0x8f; 0x01; 0xcf; 0xea; 0x41; 0x41; 0x40; 0xde; 0x5d; 0xae;
      0x22; 0x23; 0xb0; 0x03; 0x61; 0xa3; 0x96; 0x17; 0x7a; 0x9c; 0xb4; 0x10; 0xff; 0x61;
      0xf2; 0x00; 0x15; 0xad ].
Proof. vm_compute. reflexivity. Qed.

Example sha256_empty_prefix :
  firstn 4 (map SHA256.byte_to_Z (SHA256.digest [])) = [ 0xe3; 0xb0; 0xc4; 0x42 ].
Proof. vm_compute. reflexivity. Qed.

Lemma split_slash_pieces s : Forall (fun piece => has_slash piece = false) (split_slash s).
Proof.
  induction s as [|c s IH]; simpl.
  - repeat constructor.
  - destruct (Ascii.eqb c slash) eqn:Ec.
    + constructor; [reflexivity | exact IH].
    + destruct (split_slash s) as [|piece rest].
      * constructor; [simpl; now rewrite Ec | constructor].
      * inversion IH as [|? ? Hp Hr]; subst.
        constructor; [simpl; now rewrite Ec, Hp | exact Hr].
Qed.

Lemma last_Forall {A} (P : A -> Prop) (l : list A) (d : A) :
  P d -> Forall P l -> P (List.last l d).
Proof.
  intros Hd Hl. induction Hl as [|x l Hx Hl IH]; simpl; [exact Hd|].
  destruct l; [exact Hx | exact IH].
Qed.

Lemma last_segment_no_slash url : has_slash (last_segment url) = false.
Proof.
  unfold last_segment.
  apply (last_Forall (fun piece => has_slash piece = false)); [reflexivity|].
  apply split_slash_pieces.
Qed.

Lemma no_slash_startswith s : has_slash s = false -> startswith_slash s = false.
Proof. destruct s as [|c s]; simpl; [reflexivity|]. now intros [? _]%orb_false_iff. Qed.

Lemma append_inj_r (a x y : string) : a +:+ x = a +:+ y -> x = y.
Proof. induction a as [|c a IH]; simpl; [trivial|]. intros [= E]. now apply IH. Qed.

(** Under a fixed directory, joining is one-to-one on slash-free names. *)
Lemma path_join_inj d a b :
  has_slash a = false -> has_slash b = false -> path_join d a = path_join d b -> a = b.
Proof.
  intros Ha%no_slash_startswith Hb%no_slash_startswith. unfold path_join.
  rewrite Ha, Hb.
  destruct (String.eqb d "" || endswith_slash d)%bool; intros E.
  - now apply append_inj_r in E.
  - apply append_inj_r in E. now injection E.
Qed.

(** ** Running the monad *)

Lemma set_fs_same w : set_fs (w_fs w) w = w.
Proof. now destruct w. Qed.


(** The checks of the file system and of the store look at the files and
    the databases only. *)
Lemma mkdir_error_ext w1 w2 p :
  w_fs w1 = w_fs w2 -> w_dbs w1 = w_dbs w2 -> mkdir_error w1 p = mkdir_error w2 p.
Proof.
  intros Hf Hd. unfold mkdir_error, no_directory, file_at, taken.
  now rewrite Hf, Hd.
Qed.

Lemma connect_error_ext w1 w2 p :
  w_fs w1 = w_fs w2 -> w_dbs w1 = w_dbs w2 -> connect_error w1 p = connect_error w2 p.
Proof. intros Hf Hd. unfold connect_error. now rewrite Hf, Hd. Qed.

Lemma not_a_database_ext w1 w2 p :
  w_fs w1 = w_fs w2 -> w_dbs w1 = w_dbs w2 -> not_a_database w1 p = not_a_database w2 p.
Proof. intros Hf Hd. unfold not_a_database. now rewrite Hf, Hd. Qed.

Lemma open_db_ext w1 w2 p : w_dbs w1 = w_dbs w2 -> open_db w1 p = open_db w2 p.
Proof. intros Hd. unfold open_db, db_at. now rewrite Hd. Qed.

Lemma dir_at_walkable fs abs r : dir_at fs abs r = true -> walkable fs abs r = true.
Proof.
  destruct r as [|c r]; simpl; [reflexivity|].
  destruct (is_alias c); [trivial|]. now intros [? _]%andb_true_iff.
Qed.

(** A new directory hides none of the old ones. *)
Lemma dir_at_insert fs abs k r :
  (dir_at fs abs r = true -> dir_at (<[k := Dir]> fs) abs r = true) /\
  (walkable fs abs r = true -> walkable (<[k := Dir]> fs) abs r = true).
Proof.
  induction r as [|c r [IHd IHw]]; simpl; [now split|].
  destruct (is_alias c); [now split|]. split; [|exact IHw].
  intros [Hw Hl]%andb_true_iff. rewrite (IHw Hw). simpl.
  destruct (decide (k = key abs (c :: norm abs r))) as [->|Hne].
  - now rewrite lookup_insert_eq.
  - now rewrite lookup_insert_ne.
Qed.

(** Slashes at the end of a path change nothing of where it leads. *)
Lemma drop_empty_dir_at fs abs l :
  dir_at fs abs (drop_empty l) = dir_at fs abs l /\
  norm abs (drop_empty l) = norm abs l.
Proof.
  induction l as [|c l [IHd IHn]]; simpl; [now split|].
  destruct (String.eqb c "") eqn:Ec; [|now split].
  apply String.eqb_eq in Ec. subst c. simpl. now split.
Qed.

(** Where [os.mkdir(p)] succeeds, [p] is a directory afterwards. *)
Lemma isdir_after_mkdir w p :
  mkdir_error w p = None -> isdir (<[mkdir_key p := Dir]> (w_fs w)) p = true.
Proof.
  unfold mkdir_error, isdir, path_ok.
  destruct (has_nul p); [discriminate|].
  destruct (String.eqb p ""); [discriminate|].
  destruct (PATH_MAX <=? String.length p)%nat eqn:El; [discriminate|].
  apply Nat.leb_gt in El. apply Nat.ltb_lt in El. rewrite El. simpl.
  destruct (drop_empty_dir_at (<[mkdir_key p := Dir]> (w_fs w)) (startswith_slash p)
              (rev (split_slash p))) as [<- _].
  unfold mkdir_key.
  destruct (drop_empty (rev (split_slash p))) as [|c r] eqn:Ec; [discriminate|].
  destruct (dir_at (w_fs w) (startswith_slash p) r) eqn:Ed; [|discriminate]. simpl.
  destruct (is_alias c) eqn:Ea; [discriminate|]. intros _.
  assert (Hd : is_dots c = false).
  { unfold is_alias in Ea. now apply orb_false_iff in Ea as [_ ?]. }
  rewrite Hd, lookup_insert_eq, andb_true_r.
  apply dir_at_insert. now apply dir_at_walkable.
Qed.

(** Where [os.mkdir(p)] succeeds, nothing stood at the place of the new
    directory. *)
Lemma mkdir_error_free w p : mkdir_error w p = None -> taken w (mkdir_key p) = false.
Proof.
  unfold mkdir_error.
  destruct (has_nul p); [discriminate|].
  destruct (String.eqb p ""); [discriminate|].
  destruct (PATH_MAX <=? String.length p)%nat; [discriminate|].
  destruct (drop_empty (rev (split_slash p))) as [|c r]; [discriminate|].
  destruct (negb (dir_at (w_fs w) (startswith_slash p) r)); [discriminate|].
  destruct (is_alias c); [discriminate|].
  destruct (NAME_MAX <? String.length c)%nat; [discriminate|].
  now destruct (taken w (mkdir_key p)).
Qed.

(** [get_image_path] in one equation: the path is computed from the
    arguments alone, the world decides between returning and raising. *)
Lemma get_image_path_eq url dir w :
  let p := path_join dir (last_segment url) in
  get_image_path url dir w =
    if isdir (w_fs w) p then (Return p, w)
    else match mkdir_error w p with
         | Some e => (Raise e, w)
         | None => (Return p, set_fs (<[mkdir_key p := Dir]> (w_fs w)) w)
         end.
Proof.
  intros p. unfold get_image_path, bind, path_isdir, mkdir, ret. fold p.
  destruct (isdir (w_fs w) p) eqn:Ed; simpl; [reflexivity|].
  now destruct (mkdir_error w p).
Qed.

(** The joined path is the directory, a slash unless the directory brings
    one, and the segment. *)
Lemma path_join_segment dir url :
  path_join dir (last_segment url) = dir +:+ last_segment url \/
  path_join dir (last_segment url) = dir +:+ "/" +:+ last_segment url.
Proof.
  unfold path_join.
  rewrite (no_slash_startswith _ (last_segment_no_slash url)).
  destruct (String.eqb dir "" || endswith_slash dir)%bool; auto.
Qed.

Lemma get_image_path_returns url dir w r w' :
  get_image_path url dir w = (Return r, w') ->
  r = path_join dir (last_segment url) /\ isdir (w_fs w') r = true.
Proof.
  rewrite get_image_path_eq. cbv zeta.
  destruct (isdir (w_fs w) _) eqn:Ed.
  - intros [= <- <-]. now split.
  - destruct (mkdir_error w _) eqn:Em; [discriminate|].
    intros [= <- <-]. split; [reflexivity|]. simpl. now apply isdir_after_mkdir.
Qed.

(** ** C10: the frame of [get_image_path] *)

(** C10. For every base directory, URL and world, the path that
    [get_image_path] works with is the join of the base directory with the
    URL's last segment, a name directly inside the base directory.  When that
    path is a directory already, the call returns it and changes nothing.
    When it is not, the call does what [os.mkdir] does with it: where
    [os.mkdir] refuses the path, the call raises and the world is as it was;
    where it does not, the call returns the path and the world differs by one
    new directory at it, at a place where nothing stood, so that the path
    returned is a directory itself and not a file inside one.  No other path
    and nothing but the file system changes. *)
Theorem get_image_path_frame (url dir : string) (w : World) :
  let p := path_join dir (last_segment url) in
  (p = dir +:+ last_segment url \/ p = dir +:+ "/" +:+ last_segment url) /\
  has_slash (last_segment url) = false /\
  if isdir (w_fs w) p then get_image_path url dir w = (Return p, w)
  else
    match mkdir_error w p with
    | Some _ => exists e, get_image_path url dir w = (Raise e, w)
    | None =>
        get_image_path url dir w
        = (Return p, set_fs (<[mkdir_key p := Dir]> (w_fs w)) w) /\
        taken w (mkdir_key p) = false /\
        isdir (<[mkdir_key p := Dir]> (w_fs w)) p = true /\
        (forall q, q <> mkdir_key p ->
                   <[mkdir_key p := Dir]> (w_fs w) !! q = w_fs w !! q)
    end.
Proof.
  intros p. split; [apply path_join_segment|]. split; [apply last_segment_no_slash|].
  rewrite get_image_path_eq. fold p.
  destruct (isdir (w_fs w) p) eqn:Ed; [reflexivity|].
  destruct (mkdir_error w p) as [e|] eqn:Em; [now exists e|].
  split; [reflexivity|]. split; [now apply mkdir_error_free|].
  split; [now apply isdir_after_mkdir|].
  intros q Hq. now apply lookup_insert_ne.
Qed.

Example get_image_path_creates :
  get_image_path image_url_const "/tmp/x" (sample_world [] (serve 200 abc))
  = (Return "/tmp/x/astropix.html",
     set_fs (<["/tmp/x/astropix.html" := Dir]> sample_fs)
            (sample_world [] (serve 200 abc))).
Proof. reflexivity. Qed.

Example get_image_path_no_parent :
  fst (get_image_path image_url_const "/nowhere" (sample_world [] (serve 200 abc)))
  = Raise (FileNotFoundError "/nowhere/astropix.html").
Proof. reflexivity. Qed.

(** A URL that ends in a slash has an empty last segment: the path is the
    base directory with a slash, which is a directory already, and nothing is
    created.  The same holds for a last segment [.] or [..]. *)
Example get_image_path_empty_segment :
  get_image_path "https://apod.nasa.gov/apod/" "/tmp/x" (sample_world [] (serve 200 abc))
  = (Return "/tmp/x/", sample_world [] (serve 200 abc)) /\
  get_image_path "https://apod.nasa.gov/apod/." "/tmp/x" (sample_world [] (serve 200 abc))
  = (Return "/tmp/x/.", sample_world [] (serve 200 abc)) /\
  get_image_path "https://apod.nasa.gov/apod/.." "/tmp/x" (sample_world [] (serve 200 abc))
  = (Return "/tmp/x/..", sample_world [] (serve 200 abc)).
Proof. repeat split. Qed.

(** A last segment longer than [NAME_MAX] is refused by [os.mkdir]. *)
Example get_image_path_long_segment :
  get_image_path ("https://apod.nasa.gov/apod/" +:+ long_name) "/tmp/x"
    (sample_world [] (serve 200 abc))
  = (Raise (OSError "[Errno 36] File name too long"), sample_world [] (serve 200 abc)).
Proof. vm_compute. reflexivity. Qed.

(** A database file at the place of the directory is in the way. *)
Example get_image_path_database_in_the_way :
  let w := set_dbs {[ "/tmp/x/astropix.html" := [] ]} (sample_world [] (serve 200 abc)) in
  get_image_path image_url_const "/tmp/x" w
  = (Raise (FileExistsError "/tmp/x/astropix.html"), w).
Proof. reflexivity. Qed.

(** ** C4: path determinism and distinctness *)

(** C4, as the claim states it, fails: two distinct URLs that end in the same
    segment are given the same path under the same directory. *)
Lemma get_image_path_collision :
  "https://a.example/img/x.jpg" <> "https://b.example/x.jpg" /\
  fst (get_image_path "https://a.example/img/x.jpg" "/tmp/x" (sample_world [] (serve 200 abc)))
    = Return "/tmp/x/x.jpg" /\
  fst (get_image_path "https://b.example/x.jpg" "/tmp/x" (sample_world [] (serve 200 abc)))
    = Return "/tmp/x/x.jpg".
Proof. split; [discriminate|]. split; reflexivity. Qed.

(** C4 (amended). Whenever [get_image_path] returns, in whatever worlds, the
    same directory and URL give the same path, also on the call that follows
    in the world the first call left; and two URLs whose last segments differ
    give two different paths under the same directory. *)
Theorem get_image_path_stable (dir url1 url2 : string) (w1 w2 w1' w2' : World)
    (p1 p2 : string) :
  get_image_path url1 dir w1 = (Return p1, w1') ->
  get_image_path url2 dir w2 = (Return p2, w2') ->
  (url1 = url2 -> p1 = p2) /\
  (last_segment url1 <> last_segment url2 -> p1 <> p2) /\
  get_image_path url1 dir w1' = (Return p1, w1').
Proof.
  intros H1 H2.
  destruct (get_image_path_returns _ _ _ _ _ H1) as [E1 D1].
  destruct (get_image_path_returns _ _ _ _ _ H2) as [E2 _].
  split; [|split].
  - intros ->. congruence.
  - intros Hne Heq. apply Hne. subst p1 p2.
    eapply path_join_inj; eauto using last_segment_no_slash.
  - rewrite get_image_path_eq. cbv zeta. rewrite <- E1. now rewrite D1.
Qed.

(** The amended C4 on the script's URL and a second image URL, under [/tmp/x]. *)
Lemma get_image_path_stable_witness :
  ("https://apod.nasa.gov/apod/astropix.html" = "https://apod.nasa.gov/apod/image/M31.jpg"
   -> "/tmp/x/astropix.html" = "/tmp/x/M31.jpg") /\
  (last_segment "https://apod.nasa.gov/apod/astropix.html"
   <> last_segment "https://apod.nasa.gov/apod/image/M31.jpg"
   -> "/tmp/x/astropix.html" <> "/tmp/x/M31.jpg") /\
  get_image_path "https://apod.nasa.gov/apod/astropix.html" "/tmp/x"
    (set_fs (<["/tmp/x/astropix.html" := Dir]> sample_fs)
            (sample_world [] (serve 200 abc)))
  = (Return "/tmp/x/astropix.html",
     set_fs (<["/tmp/x/astropix.html" := Dir]> sample_fs)
            (sample_world [] (serve 200 abc))).
Proof.
  apply (get_image_path_stable "/tmp/x"
           "https://apod.nasa.gov/apod/astropix.html"
           "https://apod.nasa.gov/apod/image/M31.jpg"
           (sample_world [] (serve 200 abc)) (sample_world [] (serve 200 abc))
           _ (set_fs (<["/tmp/x/M31.jpg" := Dir]> sample_fs)
                     (sample_world [] (serve 200 abc))));
    reflexivity.
Defined.

(** ** The SQL statements of the script under the SQLite model *)

Lemma parse_apodTable :
  Sqlite.parse apodTable = Some (CreateTableIfNotExists "apod_images" apod_columns).
Proof. reflexivity. Qed.

Lemma parse_selectStatement :
  Sqlite.parse selectStatement
  = Some (SelectWhereEq "date" "apod_images" "sha256" "image_sha256").
Proof. reflexivity. Qed.

Lemma exec_select_keeps_db col table lhs rhs db db' rs :
  exec (SelectWhereEq col table lhs rhs) db = inr (db', rs) -> db' = db.
Proof.
  simpl. destruct (find_table table db) as [t|]; [|discriminate].
  destruct (column_index col (columns t)); [|discriminate].
  destruct (column_index lhs (columns t)); [|discriminate].
  destruct (column_index rhs (columns t)); [|discriminate].
  now intros [= <- _].
Qed.

Lemma db_at_insert w conn db p :
  db_at (set_dbs (<[conn := db]> (w_dbs w)) w) p
  = if decide (conn = p) then db else db_at w p.
Proof.
  unfold db_at. simpl. rewrite lookup_insert. now destruct (decide (conn = p)).
Qed.

Lemma db_at_insert_same w conn p :
  db_at (set_dbs (<[conn := db_at w conn]> (w_dbs w)) w) p = db_at w p.
Proof. rewrite db_at_insert. destruct (decide (conn = p)); congruence. Qed.

Lemma store_db_fs conn db w : w_fs (store_db conn db w) = w_fs w.
Proof. unfold store_db. now destruct (transient conn). Qed.

Lemma db_at_store_db w conn db p :
  db_at (store_db conn db w) p
  = if (negb (transient conn) && bool_decide (conn = p))%bool then db else db_at w p.
Proof.
  unfold store_db. destruct (transient conn); [reflexivity|].
  rewrite db_at_insert. simpl. now destruct (decide (conn = p)); case_bool_decide.
Qed.

Lemma db_at_store_db_same w conn p :
  db_at (store_db conn (open_db w conn) w) p = db_at w p.
Proof.
  unfold store_db, open_db. destruct (transient conn); [reflexivity|].
  apply db_at_insert_same.
Qed.


(** ** C8: the lookup never answers False *)

(** What connecting leaves: the same database to work on. *)
Lemma connect_world w p :
  let w0 := snd (sqlite3_connect p w) in
  not_a_database w0 p = not_a_database w p /\
  open_db w0 p = open_db w p /\
  (forall db, store_db p db w0 = store_db p db w) /\
  (not_a_database w p = true -> w0 = w).
Proof.
  unfold sqlite3_connect. destruct (connect_error w p); [cbn; auto|]. cbn [snd].
  unfold not_a_database, open_db, store_db, db_at.
  change (list (string * Table)) with Database.
  destruct (transient p); [auto|].
  destruct (w_dbs w !! p) as [db0|] eqn:Edb; [rewrite ?Edb; now auto|].
  destruct (w_fs w !! p) as [nd|] eqn:Efs; rewrite ?Efs; [rewrite ?Edb; now auto|].
  cbn [w_dbs w_fs set_dbs]. rewrite lookup_insert_eq. cbn.
  repeat split; [|discriminate]. intros db. now rewrite insert_insert_eq.
Qed.

(** Connecting and running one statement, in one equation. *)
Lemma connect_execute_eq `{RT : Runtime} {A} p sql (k : list Row -> M A) w :
  (conn <- sqlite3_connect p ;; rs <- cursor_execute conn sql ;; k rs) w =
    match store_error w p with
    | Some e => (Raise e, w)
    | None =>
        match execute (open_db w p) sql with
        | inr (db', rs) => k rs (store_db p db' w)
        | inl e => (Raise e, snd (sqlite3_connect p w))
        end
    end.
Proof.
  destruct (connect_world w p) as (Hn & Ho & Hs & Hw).
  unfold bind, store_error. unfold sqlite3_connect in *.
  destruct (connect_error w p) as [e|]; [reflexivity|]. cbn [snd] in *.
  unfold cursor_execute. rewrite Hn, Ho.
  destruct (not_a_database w p); [now rewrite Hw|].
  destruct (execute _ sql) as [e|[db' rs]]; [reflexivity|]. now rewrite Hs.
Qed.

(** The lookup in one equation. *)
Lemma image_already_in_db_eq `{RT : Runtime} db_path (h : Digest) w :
  image_already_in_db db_path h w =
    match store_error w db_path with
    | Some e => (Raise e, w)
    | None =>
        match execute (open_db w db_path) selectStatement with
        | inr (db', _) => (Return true, store_db db_path db' w)
        | inl e => (Raise e, snd (sqlite3_connect db_path w))
        end
    end.
Proof.
  unfold image_already_in_db.
  rewrite (connect_execute_eq db_path selectStatement
             (fun _ => if truthy selectStatement then ret true else ret false)).
  destruct (store_error w db_path); [reflexivity|].
  now destruct (execute (open_db w db_path) selectStatement) as [e|[db' rs]].
Qed.

(** C8. For every implementation of the SQL engine, every database path,
    hash and world, [image_already_in_db] raises when the store cannot be
    opened or is not a database, raises what the engine raises on the
    statement, and otherwise returns True whatever rows the query gave: the
    test is on the text of the statement, which is not empty.  It never
    returns False. *)
Theorem image_already_in_db_always_true `{RT : Runtime}
    (db_path : string) (image_sha256 : Digest) (w : World) :
  truthy selectStatement = true /\
  match store_error w db_path with
  | Some e => image_already_in_db db_path image_sha256 w = (Raise e, w)
  | None =>
      match execute (open_db w db_path) selectStatement with
      | inr (db', rows) =>
          image_already_in_db db_path image_sha256 w
          = (Return true, store_db db_path db' w)
      | inl e =>
          image_already_in_db db_path image_sha256 w
          = (Raise e, snd (sqlite3_connect db_path w))
      end
  end /\
  match fst (image_already_in_db db_path image_sha256 w) with
  | Return known => known = true
  | Raise _ => True
  end.
Proof.
  split; [reflexivity|]. rewrite image_already_in_db_eq.
  destruct (store_error w db_path); [simpl; auto|].
  destruct (execute (open_db w db_path) selectStatement) as [e|[db' rs]]; simpl; auto.
Qed.

Example image_already_in_db_true_without_rows :
  fst (@image_already_in_db accepting_engine "/tmp/x/apod_images.db"
         (SHA256.digest abc) (sample_world [] (serve 200 abc)))
  = Return true.
Proof. reflexivity. Qed.

(** ** C2: lookup by hash *)

Lemma image_already_in_db_ignores_hash `{RT : Runtime} db_path (h1 h2 : Digest) w :
  image_already_in_db db_path h1 w = image_already_in_db db_path h2 w.
Proof. reflexivity. Qed.

(** C2 at its failing input: on a store whose table was just created and
    holds no row, the lookup of the hash of [abc], never persisted, does not
    return False: SQLite refuses the statement, whose right-hand side is the
    bare word [image_sha256], and the call raises. *)
Theorem image_already_in_db_unknown_hash :
  let w := snd (@create_image_db CPython "/tmp/x/apod_images.db"
                  (sample_world [] (serve 200 abc))) in
  db_at w "/tmp/x/apod_images.db"
    = [("apod_images", {| columns := apod_columns; rows := [] |})] /\
  fst (@image_already_in_db CPython "/tmp/x/apod_images.db" (SHA256.digest abc) w)
    = Raise (OperationalError "no such column: image_sha256").
Proof. split; reflexivity. Qed.

(** ** C3: the persist step *)

(** C3 at every input: [save_image_file] followed by [add_image_to_db]
    returns and leaves the world as it was; no file is written and no row is
    inserted. *)
Theorem persist_changes_nothing (image_msg : option bytes) (image_path db_path : string)
    (image_size : Z) (image_sha256 : Digest) (w : World) :
  (save_image_file image_msg image_path ;;
   add_image_to_db db_path image_path image_size image_sha256) w = (Return tt, w).
Proof. reflexivity. Qed.

Example persist_abc_writes_no_file :
  let w := snd (@create_image_db CPython "/tmp/x/apod_images.db"
                  (sample_world [] (serve 200 abc))) in
  let w' := snd ((save_image_file (Some abc) "/tmp/x/astropix.html" ;;
                  add_image_to_db "/tmp/x/apod_images.db" "/tmp/x/astropix.html" 3
                                  (SHA256.digest abc)) w) in
  w_fs w' !! "/tmp/x/astropix.html" = None /\
  db_at w' "/tmp/x/apod_images.db"
    = [("apod_images", {| columns := apod_columns; rows := [] |})].
Proof. split; reflexivity. Qed.

(** ** C1: deduplication *)

(** Connecting leaves the files alone and changes no database: the file it
    may create is an empty database, which is what a missing file counts as. *)
Lemma sqlite3_connect_keeps_store db_path w :
  w_fs (snd (sqlite3_connect db_path w)) = w_fs w /\
  forall p, db_at (snd (sqlite3_connect db_path w)) p = db_at w p.
Proof.
  unfold sqlite3_connect. destruct (connect_error w db_path); [now split|].
  cbn [snd]. destruct (transient db_path); [now split|].
  destruct (w_dbs w !! db_path) eqn:Edb; [now split|].
  destruct (w_fs w !! db_path); [now split|].
  split; [reflexivity|]. intros p. rewrite db_at_insert.
  destruct (decide (db_path = p)) as [<-|]; [|reflexivity].
  unfold db_at. change (list (string * Table)) with Database. now rewrite Edb.
Qed.

Lemma cache_image_keeps_store db_path msg path size h w :
  let w' := snd (@cache_image CPython db_path msg path size h w) in
  w_fs w' = w_fs w /\ forall p, db_at w' p = db_at w p.
Proof.
  unfold cache_image, bind. rewrite image_already_in_db_eq.
  destruct (store_error w db_path); [now split|].
  simpl. unfold Sqlite.execute. rewrite parse_selectStatement.
  destruct (exec _ (open_db w db_path)) as [e|[db' rs]] eqn:Ex; cbn [fst snd].
  - apply sqlite3_connect_keeps_store.
  - apply exec_select_keeps_db in Ex. subst db'.
    split; [apply store_db_fs|]. intros p. apply db_at_store_db_same.
Qed.

(** C1 at every input: however many times the lookup-then-persist step runs
    on the same bytes and hash, the file system and every database are as
    they were before the first call; the count of written files and of
    inserted rows is zero, not one. *)
Theorem cache_image_never_persists (n : nat) (db_path : string) (image_msg : option bytes)
    (image_path : string) (image_size : Z) (image_sha256 : Digest) (w : World) :
  let w' := snd (repeat_call n (@cache_image CPython db_path image_msg image_path
                                  image_size image_sha256) w) in
  w_fs w' = w_fs w /\ forall p, db_at w' p = db_at w p.
Proof.
  revert w. induction n as [|n IH]; intros w; simpl; [now split|].
  unfold bind.
  pose proof (cache_image_keeps_store db_path image_msg image_path image_size
                image_sha256 w) as [Hfs Hdb].
  destruct (cache_image _ _ _ _ _ w) as [[[]|e] w1]; simpl in *.
  - destruct (IH w1) as [Hfs' Hdb']. split; [congruence|].
    intros p. now rewrite Hdb', Hdb.
  - now split.
Qed.

Example cache_image_twice_from_empty_store :
  let w := snd (@create_image_db CPython "/tmp/x/apod_images.db"
                  (sample_world [] (serve 200 abc))) in
  let w' := snd (repeat_call 2 (@cache_image CPython "/tmp/x/apod_images.db" (Some abc)
                                  "/tmp/x/astropix.html" 3 (SHA256.digest abc)) w) in
  w_fs w' !! "/tmp/x/astropix.html" = None /\
  db_at w' "/tmp/x/apod_images.db"
    = [("apod_images", {| columns := apod_columns; rows := [] |})].
Proof. split; reflexivity. Qed.

(** ** C5: creating the schema again *)



(** One call under SQLite: it raises when the store cannot be opened or is
    not a database, and otherwise returns, and the database at [db_path]
    gains the table exactly when it had none of that name. *)
Lemma create_image_db_eq db_path w :
  @create_image_db CPython db_path w =
    match store_error w db_path with
    | Some e => (Raise e, w)
    | None =>
        (Return tt,
         store_db db_path
           match find_table "apod_images" (open_db w db_path) with
           | Some _ => open_db w db_path
           | None => (open_db w db_path
                      ++ [("apod_images", {| columns := apod_columns; rows := [] |})])%list
           end w)
    end.
Proof.
  unfold create_image_db.
  rewrite (connect_execute_eq db_path apodTable (fun _ => ret tt)).
  destruct (store_error w db_path); [reflexivity|].
  change (@execute CPython) with Sqlite.execute.
  unfold Sqlite.execute. rewrite parse_apodTable. simpl.
  now destruct (find_table "apod_images" (open_db w db_path)).
Qed.





(** C5, as the claim states it, fails: at a store location whose directory
    does not exist the call raises. *)
Lemma create_image_db_unopenable :
  @create_image_db CPython "/nowhere/apod_images.db" (sample_world [] (serve 200 abc))
  = (Raise (OperationalError "unable to open database file"),
     sample_world [] (serve 200 abc)).
Proof. reflexivity. Qed.



Example create_image_db_on_existing_table :
  let w := snd (@create_image_db CPython "/tmp/x/apod_images.db"
                  (sample_world [] (serve 200 abc))) in
  @create_image_db CPython "/tmp/x/apod_images.db" w = (Return tt, w).
Proof. reflexivity. Qed.

(** A database in memory is made anew by every call and is gone with it: the
    call returns and nothing is left of the table. *)
Example create_image_db_in_memory :
  @create_image_db CPython ":memory:" (sample_world [] (serve 200 abc))
  = (Return tt, sample_world [] (serve 200 abc)).
Proof. reflexivity. Qed.

(** A file of another kind at the store location is refused. *)
Example create_image_db_not_a_database :
  let w := set_fs (<["/tmp/x/apod_images.db" := File abc]> sample_fs)
             (sample_world [] (serve 200 abc)) in
  @create_image_db CPython "/tmp/x/apod_images.db" w
  = (Raise (DatabaseError "file is not a database"), w).
Proof. reflexivity. Qed.

(** ** [main] by stages *)

Lemma main_staged_eq `{RT : Runtime} (w : World) : main w = main_staged w.
Proof.
  unfold main, main_staged, main_setup, fetch_image, main_finish, cache_image, bind.
  destruct (get_image_dir_path w) as [[dir|e] w1]; [|reflexivity].
  destruct (get_apod_date w1) as [[date|e] w2]; [|reflexivity].
  destruct (create_image_db _ w2) as [[[]|e] w3]; [|reflexivity].
  destruct (get_apod_info date w3) as [[info|e] w4]; [|reflexivity].
  simpl.
  destruct (download_apod_image _ w4) as [[msg|e] w5]; [|reflexivity].
  destruct (hashlib_sha256 msg w5) as [[h|e] w6]; [|reflexivity].
  destruct (py_len msg w6) as [[size|e] w7]; [|reflexivity].
  destruct (get_image_path _ dir w7) as [[p|e] w8]; [|reflexivity].
  unfold print_apod_info, bind, print, ret. simpl.
  destruct (image_already_in_db _ h _) as [[[]|e] w9]; reflexivity.
Qed.

Lemma main_after_setup `{RT : Runtime} w setup w1 :
  main_setup w = (Return setup, w1) ->
  main w = (fetched <- fetch_image (fst (fst setup)) ;;
            main_finish (snd (fst setup)) fetched) w1.
Proof.
  intros Hsetup. rewrite main_staged_eq. unfold main_staged.
  unfold bind at 1. now rewrite Hsetup.
Qed.

(** ** C6: a failed download *)


Lemma download_apod_image_eq url w :
  download_apod_image url w =
    let w1 := set_sent (w_sent w ++ [image_request url])%list
                (set_stdout (w_stdout w ++ [[VStr "Downloading image from URL..."]])%list w) in
    match w_net w (image_request url) with
    | inl e => (Raise e, w1)
    | inr resp =>
        if status_code resp =? 200
        then (Return (Some (content resp)),
              set_stdout (w_stdout w1 ++ [[VStr "success!"]])%list w1)
        else (Return None,
              set_stdout (w_stdout w1 ++ [[VStr "failed. Response code";
                                           VInt (status_code resp)]])%list w1)
    end.
Proof.
  unfold download_apod_image, bind, print, requests_get, ret, image_request. simpl.
  destruct (w_net w _) as [e|resp]; [reflexivity|].
  now destruct (status_code resp =? 200).
Qed.



(** ** C7: the command line *)

Lemma get_image_dir_path_eq w :
  get_image_dir_path w =
    match w_argv w !! 1%nat with
    | Some dir_path =>
        if isdir (w_fs w) dir_path
        then (Return dir_path,
              set_stdout (w_stdout w ++ [[VStr "Images directory:"; VStr dir_path]])%list w)
        else (Raise aborted,
              set_stdout (w_stdout w
                          ++ [[VStr "Error: Non-existent directory"; VStr dir_path]])%list w)
    | None =>
        (Raise aborted,
         set_stdout (w_stdout w ++ [[VStr "Error: Missing path parameter."]])%list w)
    end.
Proof.
  unfold get_image_dir_path, bind, sys_argv, py_index, path_isdir, print, sys_exit,
    raise, ret.
  destruct (2 <=? length (w_argv w))%nat eqn:El.
  - apply Nat.leb_le in El.
    destruct (lookup_lt_is_Some_2 (w_argv w) 1%nat ltac:(lia)) as [d Hd].
    rewrite Hd. simpl. now destruct (isdir (w_fs w) d).
  - apply Nat.leb_gt in El.
    now rewrite (proj2 (lookup_ge_None (w_argv w) 1%nat) ltac:(lia)).
Qed.

Lemma get_apod_date_eq `{RT : Runtime} w :
  get_apod_date w =
    match w_argv w !! 2%nat with
    | Some d =>
        match strptime d "%Y-%m-%d" with
        | inr _ => (Return d, set_stdout (w_stdout w ++ [[VStr "APOD date:"; VStr d]])%list w)
        | inl (ValueError _) =>
            (Raise aborted,
             set_stdout (w_stdout w
                         ++ [[VStr "Error: Incorrect date format; Should be YYYY-MM-DD"]])%list w)
        | inl e => (Raise e, w)
        end
    | None =>
        (Return (w_today w),
         set_stdout (w_stdout w ++ [[VStr "APOD date:"; VStr (w_today w)]])%list w)
    end.
Proof.
  unfold get_apod_date, bind, sys_argv, py_index, date_today_isoformat, print, sys_exit,
    raise, ret.
  destruct (3 <=? length (w_argv w))%nat eqn:El.
  - apply Nat.leb_le in El.
    destruct (lookup_lt_is_Some_2 (w_argv w) 2%nat ltac:(lia)) as [d Hd].
    rewrite Hd. simpl.
    destruct (strptime d "%Y-%m-%d") as [[]|]; reflexivity.
  - apply Nat.leb_gt in El.
    now rewrite (proj2 (lookup_ge_None (w_argv w) 2%nat) ltac:(lia)).
Qed.



Example missing_directory_aborts :
  @main CPython (sample_world ["apod_desktop.py"] (serve 200 abc))
  = (Raise aborted,
     set_stdout [[VStr "Error: Missing path parameter."]]
       (sample_world ["apod_desktop.py"] (serve 200 abc))).
Proof. reflexivity. Qed.

Example impossible_day_aborts :
  fst (@main CPython (sample_world ["apod_desktop.py"; "/tmp/x"; "2022-02-30"]
                        (serve 200 abc)))
  = Raise aborted.
Proof. reflexivity. Qed.

(** C7 at its failing input: the date [2022-4-7] is not written
    [YYYY-MM-DD], and [2022-04- 7] is not either, yet [strptime] reads both
    with the format [%Y-%m-%d].  [get_apod_date] returns the date as it was
    typed, no [Error:] line is printed, the run does not end by
    [exit('Script execution aborted')], and both requests are sent, the first
    one with the date as typed. *)
Theorem date_format_not_enforced :
  let w := run_on "2022-4-7" in
  is_YYYY_MM_DD "2022-4-7" = false /\
  is_YYYY_MM_DD "2022-04- 7" = false /\
  is_YYYY_MM_DD "2022-04-07" = true /\
  Strptime.strptime "2022-04- 7" "%Y-%m-%d"
  = inr {| dt_year := 2022; dt_month := 4; dt_day := 7 |} /\
  @get_apod_date CPython w
  = (Return "2022-4-7", set_stdout [[VStr "APOD date:"; VStr "2022-4-7"]] w) /\
  fst (@main CPython w) = Raise (OperationalError "no such column: image_sha256") /\
  existsb is_error_line (w_stdout (snd (@main CPython w))) = false /\
  w_sent (snd (@main CPython w))
  = [@api_request CPython "2022-4-7"; image_request image_url_const].
Proof. vm_compute. repeat split. Qed.

(** ** C9: the date does not reach the download *)

Lemma same_store_refl w : same_store w w.
Proof. now repeat split. Qed.

Lemma same_store_sym w1 w2 : same_store w1 w2 -> same_store w2 w1.
Proof. intros (? & ? & ?). now repeat split. Qed.

Lemma same_store_trans w1 w2 w3 : same_store w1 w2 -> same_store w2 w3 -> same_store w1 w3.
Proof. intros (? & ? & ?) (? & ? & ?). repeat split; congruence. Qed.

Lemma same_store_logs w out sent : same_store w (set_stdout out (set_sent sent w)).
Proof. now repeat split. Qed.

Lemma same_store_stdout w out : same_store w (set_stdout out w).
Proof. now repeat split. Qed.

Lemma insensitive_ret {A} (a : A) : insensitive (ret a).
Proof. intros w1 w2 Hs. now split. Qed.

Lemma insensitive_raise {A} e : insensitive (@raise A e).
Proof. intros w1 w2 Hs. now split. Qed.

Lemma insensitive_bind {A B} (m : M A) (k : A -> M B) :
  insensitive m -> (forall a, insensitive (k a)) -> insensitive (bind m k).
Proof.
  intros Hm Hk w1 w2 Hs. unfold bind.
  destruct (Hm w1 w2 Hs) as [Hr Hw].
  destruct (m w1) as [[a1|e1] w1'], (m w2) as [[a2|e2] w2']; simpl in *;
    try discriminate.
  - injection Hr as ->. now apply Hk.
  - injection Hr as ->. now split.
Qed.

Lemma insensitive_print args : insensitive (print args).
Proof. intros w1 w2 (Hn & Hf & Hd). now repeat split. Qed.

Lemma insensitive_path_isdir p : insensitive (path_isdir p).
Proof.
  intros w1 w2 (Hn & Hf & Hd). unfold path_isdir. simpl. rewrite Hf. now repeat split.
Qed.

Lemma insensitive_mkdir p : insensitive (mkdir p).
Proof.
  intros w1 w2 (Hn & Hf & Hd). unfold mkdir. rewrite (mkdir_error_ext w1 w2 p Hf Hd).
  destruct (mkdir_error w2 p); simpl; repeat split; simpl; congruence.
Qed.

Lemma insensitive_requests_get url params : insensitive (requests_get url params).
Proof.
  intros w1 w2 (Hn & Hf & Hd). unfold requests_get. rewrite Hn.
  destruct (w_net w2 _); now repeat split.
Qed.

Lemma insensitive_cursor_execute `{RT : Runtime} conn sql :
  insensitive (cursor_execute conn sql).
Proof.
  intros w1 w2 (Hn & Hf & Hd). unfold cursor_execute.
  rewrite (not_a_database_ext w1 w2 conn Hf Hd), (open_db_ext w1 w2 conn Hd).
  destruct (not_a_database w2 conn); [now repeat split|].
  destruct (execute _ sql) as [e|[db' rs]]; [now repeat split|].
  unfold store_db. destruct (transient conn); simpl; repeat split; simpl; congruence.
Qed.

Lemma insensitive_sqlite3_connect db_path : insensitive (sqlite3_connect db_path).
Proof.
  intros w1 w2 (Hn & Hf & Hd). unfold sqlite3_connect.
  rewrite (connect_error_ext w1 w2 db_path Hf Hd), Hd, Hf.
  destruct (connect_error w2 db_path); [now repeat split|].
  destruct (transient db_path); [now repeat split|].
  destruct (w_dbs w2 !! db_path); [now repeat split|].
  destruct (w_fs w2 !! db_path); simpl; repeat split; simpl; congruence.
Qed.

Lemma insensitive_if {A} (b : bool) (m1 m2 : M A) :
  insensitive m1 -> insensitive m2 -> insensitive (if b then m1 else m2).
Proof. now destruct b. Qed.

Create HintDb insens.

#[local] Hint Resolve insensitive_ret insensitive_raise insensitive_print
  insensitive_path_isdir insensitive_mkdir insensitive_requests_get
  insensitive_cursor_execute insensitive_sqlite3_connect insensitive_if : insens.

Ltac insens :=
  repeat first
    [ apply insensitive_bind; [|intros ?]
    | apply insensitive_if
    | solve [auto with insens] ].

Lemma insensitive_download_apod_image url : insensitive (download_apod_image url).
Proof. unfold download_apod_image. insens. Qed.

Lemma insensitive_hashlib_sha256 `{RT : Runtime} data : insensitive (hashlib_sha256 data).
Proof. destruct data; simpl; insens. Qed.

Lemma insensitive_py_len data : insensitive (py_len data).
Proof. destruct data; simpl; insens. Qed.

Lemma insensitive_get_image_path url dir : insensitive (get_image_path url dir).
Proof. unfold get_image_path. insens. Qed.

Lemma insensitive_create_image_db `{RT : Runtime} db_path :
  insensitive (create_image_db db_path).
Proof. unfold create_image_db. insens. Qed.

Lemma insensitive_fetch_image `{RT : Runtime} dir : insensitive (fetch_image dir).
Proof.
  unfold fetch_image.
  apply insensitive_bind; [apply insensitive_download_apod_image | intros msg].
  apply insensitive_bind; [apply insensitive_hashlib_sha256 | intros h].
  apply insensitive_bind; [apply insensitive_py_len | intros size].
  apply insensitive_bind; [apply insensitive_get_image_path | intros p].
  apply insensitive_ret.
Qed.

Lemma insensitive_main_finish `{RT : Runtime} db_path fetched :
  insensitive (main_finish db_path fetched).
Proof.
  destruct fetched as [[[[url msg] h] size] p].
  unfold main_finish, print_apod_info, cache_image, image_already_in_db,
    save_image_file, add_image_to_db, set_desktop_background_image.
  insens.
Qed.

(** What a returning [main_setup] has done: it took the directory from the
    command line, and apart from the log of requests and the output it only
    ran [create_image_db]. *)
Lemma main_setup_returns `{RT : Runtime} w dir db date w1 :
  main_setup w = (Return (dir, db, date), w1) ->
  w_argv w !! 1%nat = Some dir /\ db = path_join dir "apod_images.db" /\
  exists wb, same_store w wb /\ same_store (snd (create_image_db db wb)) w1.
Proof.
  unfold main_setup, bind. rewrite get_image_dir_path_eq.
  destruct (w_argv w !! 1%nat) as [dir0|]; [|discriminate].
  destruct (isdir (w_fs w) dir0); [|discriminate].
  destruct (get_apod_date _) as [[date0|e] wb] eqn:Hdate; [|discriminate].
  assert (Hwb : same_store w wb).
  { rewrite get_apod_date_eq in Hdate. simpl in Hdate.
    destruct (w_argv w !! 2%nat) as [d|].
    - destruct (strptime d "%Y-%m-%d") as [[]|]; try discriminate.
      injection Hdate as _ <-. now repeat split.
    - injection Hdate as _ <-. now repeat split. }
  destruct (create_image_db _ wb) as [[[]|e] wc] eqn:Hcreate; [|discriminate].
  unfold get_apod_info, bind, requests_get, print, ret.
  destruct (w_net wc _) as [e|resp]; [discriminate|].
  destruct (status_code resp =? 200); simpl; intros [= <- <- <- <-];
    (split; [reflexivity|]; split; [reflexivity|]);
    exists wb; (split; [exact Hwb|]); rewrite Hcreate; now repeat split.
Qed.

(** C9. Take two runs on the same network, files and databases and with the
    same directory argument; the date argument, the clock, and what was
    printed or requested before may differ.  If both get past the API
    information call, then the download stage of [main] gives the same
    outcome in both: the same URL (the constant one), bytes, hash, size and
    path, or the same exception; it leaves the same files and databases; and
    [main] as a whole ends the same way on the same files and databases. *)
Theorem date_noninterference `{RT : Runtime} (w w' w1 w1' : World)
    (dir db date dir' db' date' : string) :
  same_store w w' ->
  w_argv w !! 1%nat = w_argv w' !! 1%nat ->
  main_setup w = (Return (dir, db, date), w1) ->
  main_setup w' = (Return (dir', db', date'), w1') ->
  dir = dir' /\ db = db' /\
  fst (fetch_image dir w1) = fst (fetch_image dir' w1') /\
  same_store (snd (fetch_image dir w1)) (snd (fetch_image dir' w1')) /\
  fst (main w) = fst (main w') /\
  same_store (snd (main w)) (snd (main w')).
Proof.
  intros Hs Hargv H1 H2.
  destruct (main_setup_returns _ _ _ _ _ H1) as (Hd1 & -> & wb & Hwb & Hw1).
  destruct (main_setup_returns _ _ _ _ _ H2) as (Hd2 & -> & wb' & Hwb' & Hw1').
  assert (dir = dir') as <- by congruence.
  assert (Hs1 : same_store w1 w1').
  { eapply same_store_trans; [apply same_store_sym, Hw1|].
    eapply same_store_trans; [|apply Hw1'].
    apply insensitive_create_image_db.
    eapply same_store_trans; [apply same_store_sym, Hwb|].
    eapply same_store_trans; [apply Hs | apply Hwb']. }
  split; [reflexivity|]. split; [reflexivity|].
  split; [now apply insensitive_fetch_image|].
  split; [now apply insensitive_fetch_image|].
  rewrite (main_after_setup _ _ _ H1), (main_after_setup _ _ _ H2). simpl.
  apply (insensitive_bind (fetch_image dir) (main_finish (path_join dir "apod_images.db")));
    [apply insensitive_fetch_image | intros; apply insensitive_main_finish | exact Hs1].
Qed.

(** C9 on the sample machine, for the dates 2022-04-27 and 1995-06-16. *)
Lemma date_noninterference_witness :
  "/tmp/x" = "/tmp/x" /\ "/tmp/x/apod_images.db" = "/tmp/x/apod_images.db" /\
  fst (@fetch_image CPython "/tmp/x" (snd (@main_setup CPython (run_on "2022-04-27"))))
  = fst (@fetch_image CPython "/tmp/x" (snd (@main_setup CPython (run_on "1995-06-16")))) /\
  same_store
    (snd (@fetch_image CPython "/tmp/x" (snd (@main_setup CPython (run_on "2022-04-27")))))
    (snd (@fetch_image CPython "/tmp/x" (snd (@main_setup CPython (run_on "1995-06-16"))))) /\
  fst (@main CPython (run_on "2022-04-27")) = fst (@main CPython (run_on "1995-06-16")) /\
  same_store (snd (@main CPython (run_on "2022-04-27")))
             (snd (@main CPython (run_on "1995-06-16"))).
Proof.
  apply (@date_noninterference CPython (run_on "2022-04-27") (run_on "1995-06-16")
           (snd (@main_setup CPython (run_on "2022-04-27")))
           (snd (@main_setup CPython (run_on "1995-06-16")))
           "/tmp/x" "/tmp/x/apod_images.db" "2022-04-27"
           "/tmp/x" "/tmp/x/apod_images.db" "1995-06-16").
  - repeat split.
  - reflexivity.
  - reflexivity.
  - reflexivity.
Defined.

Example fetch_image_on_two_dates :
  fst (@fetch_image CPython "/tmp/x" (snd (@main_setup CPython (run_on "2022-04-27"))))
  = Return ("https://apod.nasa.gov/apod/astropix.html", Some abc, SHA256.digest abc, 3,
            "/tmp/x/astropix.html") /\
  fst (@fetch_image CPython "/tmp/x" (snd (@main_setup CPython (run_on "1995-06-16"))))
  = Return ("https://apod.nasa.gov/apod/astropix.html", Some abc, SHA256.digest abc, 3,
            "/tmp/x/astropix.html").
Proof. split; reflexivity. Qed.

(** The date does reach the API information request and the output. *)
Example date_reaches_the_log :
  w_sent (snd (@main_setup CPython (run_on "2022-04-27")))
  <> w_sent (snd (@main_setup CPython (run_on "1995-06-16"))).
Proof. vm_compute. discriminate. Qed.

(** ** Whole runs on the sample machine *)

(** With valid arguments and a 200 answer the run gets as far as the lookup,
    where SQLite refuses the statement; the directory for the image and the
    table have been created by then. *)
Example main_stops_at_lookup :
  let w := snd (@main CPython (run_on "2022-04-27")) in
  fst (@main CPython (run_on "2022-04-27"))
  = Raise (OperationalError "no such column: image_sha256") /\
  w_fs w = <["/tmp/x/astropix.html" := Dir]> sample_fs /\
  db_at w "/tmp/x/apod_images.db"
  = [("apod_images", {| columns := apod_columns; rows := [] |})] /\
  map req_url (w_sent w)
  = ["https://api.nasa.gov/planetary/apod"; "https://apod.nasa.gov/apod/astropix.html"].
Proof. vm_compute. repeat split. Qed.

(** [strptime] also reads a month and a day written without the leading
    zero, and refuses a day that the month does not have. *)
Example strptime_samples :
  Strptime.strptime "2022-04-27" "%Y-%m-%d"
  = inr {| dt_year := 2022; dt_month := 4; dt_day := 27 |} /\
  Strptime.strptime "2022-4-7" "%Y-%m-%d"
  = inr {| dt_year := 2022; dt_month := 4; dt_day := 7 |} /\
  Strptime.strptime "2024-02-29" "%Y-%m-%d"
  = inr {| dt_year := 2024; dt_month := 2; dt_day := 29 |} /\
  Strptime.strptime "2022-02-29" "%Y-%m-%d" = inl (ValueError "day is out of range for month") /\
  Strptime.strptime "2022-04-27 " "%Y-%m-%d" = inl (ValueError "unconverted data remains") /\
  Strptime.strptime "27-04-2022" "%Y-%m-%d" = inl Strptime.no_match.
Proof. repeat split. Qed.


(** * Further properties of the script *)

(** ** The last segment of a URL *)

Lemma split_slash_shape s :
  match split_slash s with
  | [] => False
  | [piece] => head_to_last_slash s = "" /\ s = piece
  | _ :: rest => head_to_last_slash s <> "" /\
                 s = head_to_last_slash s +:+ List.last rest ""
  end.
Proof.
  induction s as [|c s IH]; simpl; [now split|].
  destruct (Ascii.eqb c slash) eqn:Ec.
  - apply Ascii.eqb_eq in Ec. subst c.
    destruct (split_slash s) as [|piece [|piece' rest]]; [contradiction| |].
    + destruct IH as [-> ->]. simpl. now split.
    + destruct IH as [Hne Hs]. destruct (head_to_last_slash s) eqn:Eh; [congruence|].
      split; [discriminate|]. exact (f_equal (String slash) Hs).
  - destruct (split_slash s) as [|piece [|piece' rest]]; [contradiction| |].
    + destruct IH as [-> ->]. now split.
    + destruct IH as [Hne Hs]. destruct (head_to_last_slash s) eqn:Eh; [congruence|].
      split; [discriminate|]. exact (f_equal (String c) Hs).
Qed.

Lemma head_to_last_slash_end s :
  head_to_last_slash s = "" \/ endswith_slash (head_to_last_slash s) = true.
Proof.
  induction s as [|c s IH]; simpl; [now left|].
  destruct (head_to_last_slash s) as [|c' h] eqn:Eh.
  - destruct (Ascii.eqb c slash) eqn:Ec; [right | left]; simpl; auto.
  - right. destruct IH as [IH|IH]; [discriminate|]. exact IH.
Qed.

(** X1. The name that [get_image_path] takes from a URL is the text after
    the URL's last slash: the URL is some head, empty or ending in a slash,
    followed by that name, and the name holds no slash. *)
Theorem last_segment_is_tail (url : string) :
  exists head,
    url = head +:+ last_segment url /\
    (head = "" \/ endswith_slash head = true) /\
    has_slash (last_segment url) = false.
Proof.
  exists (head_to_last_slash url).
  split; [|split; [apply head_to_last_slash_end | apply last_segment_no_slash]].
  unfold last_segment. pose proof (split_slash_shape url) as H.
  destruct (split_slash url) as [|piece [|piece' rest]]; [contradiction| |].
  - destruct H as [-> ->]. reflexivity.
  - destruct H as [_ H]. exact H.
Qed.

Example last_segment_samples :
  last_segment "https://apod.nasa.gov/apod/astropix.html" = "astropix.html" /\
  last_segment "https://apod.nasa.gov/apod/" = "" /\
  last_segment "astropix.html" = "astropix.html" /\
  last_segment "" = "".
Proof. repeat split. Qed.

Lemma append_empty_r (s : string) : s +:+ "" = s.
Proof. induction s as [|c s IH]; [reflexivity | exact (f_equal (String c) IH)]. Qed.

Lemma endswith_slash_append a b :
  b <> "" -> endswith_slash (a +:+ b) = endswith_slash b.
Proof.
  intros Hb. induction a as [|c a IH]; simpl; [reflexivity|].
  destruct (a +:+ b) eqn:E; [|exact IH].
  destruct a; [exfalso; apply Hb; exact E | discriminate].
Qed.

Lemma endswith_slash_has_slash s : endswith_slash s = true -> has_slash s = true.
Proof.
  induction s as [|c s IH]; simpl; [discriminate|].
  destruct s as [|c' s']; [now intros -> | intros H]. rewrite (IH H). apply orb_true_r.
Qed.

(** X2. The name taken from a URL is empty exactly when the URL is empty or
    ends in a slash. *)
Theorem last_segment_empty_iff (url : string) :
  last_segment url = "" <-> url = "" \/ endswith_slash url = true.
Proof.
  destruct (last_segment_no_slash url) as [].
  pose proof (split_slash_shape url) as Hshape.
  pose proof (head_to_last_slash_end url) as Hend.
  assert (Hurl : url = head_to_last_slash url +:+ last_segment url).
  { unfold last_segment.
    destruct (split_slash url) as [|piece [|piece' rest]]; [contradiction| |].
    - destruct Hshape as [-> ->]. reflexivity.
    - now destruct Hshape. }
  split.
  - intros Hseg. rewrite Hseg, append_empty_r in Hurl.
    rewrite <- Hurl in Hend. exact Hend.
  - intros [->|Hs]; [reflexivity|].
    destruct (last_segment url) as [|c seg] eqn:Eseg; [reflexivity|].
    rewrite Hurl, endswith_slash_append in Hs by discriminate.
    apply endswith_slash_has_slash in Hs.
    pose proof (last_segment_no_slash url) as Hno. rewrite Eseg in Hno. congruence.
Qed.

(** ** [get_image_path] inside an existing directory *)

Lemma head_to_last_slash_no_slash s : has_slash s = false -> head_to_last_slash s = "".
Proof.
  induction s as [|c s IH]; simpl; [reflexivity|].
  intros [Hc Hs]%orb_false_iff. now rewrite (IH Hs), Hc.
Qed.

Lemma head_to_last_slash_join a b :
  has_slash b = false -> head_to_last_slash (a +:+ String slash b) = a +:+ "/".
Proof.
  intros Hb. induction a as [|c a IH]; simpl.
  - now rewrite (head_to_last_slash_no_slash b Hb).
  - rewrite IH. now destruct a.
Qed.

Lemma rstrip_slash_cons c s :
  rstrip_slash (String c s) =
    match rstrip_slash s with
    | EmptyString => if Ascii.eqb c slash then EmptyString else String c EmptyString
    | t => String c t
    end.
Proof. reflexivity. Qed.

Lemma rstrip_slash_join d :
  d <> "" -> endswith_slash d = false -> rstrip_slash (d +:+ "/") = d.
Proof.
  induction d as [|c d IH]; [congruence|]. intros _ Hend.
  destruct d as [|c' d'].
  - simpl in *. now rewrite Hend.
  - assert (E : rstrip_slash (String c' d' +:+ "/") = String c' d')
      by (apply IH; [discriminate | exact Hend]).
    change (String c (String c' d') +:+ "/") with (String c (String c' d' +:+ "/")).
    rewrite rstrip_slash_cons, E. reflexivity.
Qed.

(** [posixpath.dirname] undoes [posixpath.join] on a slash-free name, when
    the directory is not written with a slash at its end. *)
Lemma dirname_path_join d seg :
  endswith_slash d = false -> has_slash seg = false -> dirname (path_join d seg) = d.
Proof.
  intros Hd Hseg. unfold path_join, dirname.
  rewrite (no_slash_startswith _ Hseg), Hd.
  destruct d as [|c d'].
  - change (String.eqb "" "") with true. cbn [orb]. change ("" +:+ seg) with seg.
    now rewrite (head_to_last_slash_no_slash seg Hseg).
  - change (String.eqb (String c d') "") with false. cbn [orb].
    change (String c d' +:+ "/" +:+ seg) with (String c d' +:+ String slash seg).
    rewrite (head_to_last_slash_join _ _ Hseg), rstrip_slash_join by (congruence || exact Hd).
    reflexivity.
Qed.














(** The same call when the directory is written in other ways: the place is
    the same one. *)
Example get_image_path_other_spellings :
  let w := sample_world [] (serve 200 abc) in
  let w' := set_fs (<["/tmp/x/astropix.html" := Dir]> sample_fs) w in
  get_image_path image_url_const "/tmp/x/" w = (Return "/tmp/x/astropix.html", w') /\
  get_image_path image_url_const "/tmp/x/." w = (Return "/tmp/x/./astropix.html", w') /\
  get_image_path image_url_const "/tmp//x" w = (Return "/tmp//x/astropix.html", w') /\
  get_image_path image_url_const "/tmp/../tmp/x/./astropix.html/.." w'
  = (Return "/tmp/../tmp/x/./astropix.html/../astropix.html", w') /\
  get_image_path image_url_const "/tmp/x" w' = (Return "/tmp/x/astropix.html", w').
Proof. vm_compute. repeat split. Qed.

(** ** What a computation leaves alone *)

Section Keeps.

Context {X : Type} (f : World -> X).

Hypothesis f_stdout : forall out w, f (set_stdout out w) = f w.
Hypothesis f_sent : forall l w, f (set_sent l w) = f w.
Hypothesis f_fs : forall fs w, f (set_fs fs w) = f w.
Hypothesis f_dbs : forall dbs w, f (set_dbs dbs w) = f w.

Lemma keeps_ret {A} (a : A) : keeps f (ret a).
Proof. intros w. reflexivity. Qed.

Lemma keeps_raise {A} e : keeps f (@raise A e).
Proof. intros w. reflexivity. Qed.

Lemma keeps_bind {A B} (m : M A) (k : A -> M B) :
  keeps f m -> (forall a, keeps f (k a)) -> keeps f (bind m k).
Proof.
  intros Hm Hk w. unfold bind. specialize (Hm w).
  destruct (m w) as [[a|e] w1]; simpl in *; [|exact Hm].
  now rewrite Hk.
Qed.

Lemma keeps_if {A} (b : bool) (m1 m2 : M A) :
  keeps f m1 -> keeps f m2 -> keeps f (if b then m1 else m2).
Proof. now destruct b. Qed.

Lemma keeps_sys_argv : keeps f sys_argv.
Proof. intros w. reflexivity. Qed.

Lemma keeps_date_today : keeps f date_today_isoformat.
Proof. intros w. reflexivity. Qed.

Lemma keeps_py_index {A} (l : list A) i : keeps f (py_index l i).
Proof. intros w. unfold py_index. now destruct (l !! i). Qed.

Lemma keeps_path_isdir p : keeps f (path_isdir p).
Proof. intros w. reflexivity. Qed.

Lemma keeps_print args : keeps f (print args).
Proof. intros w. apply f_stdout. Qed.

Lemma keeps_requests_get url params : keeps f (requests_get url params).
Proof. intros w. unfold requests_get. destruct (w_net w _); apply f_sent. Qed.

Lemma keeps_mkdir p : keeps f (mkdir p).
Proof.
  intros w. unfold mkdir. destruct (mkdir_error w p); [reflexivity | apply f_fs].
Qed.

Lemma keeps_cursor_execute `{RT : Runtime} conn sql : keeps f (cursor_execute conn sql).
Proof.
  intros w. unfold cursor_execute. destruct (not_a_database w conn); [reflexivity|].
  destruct (execute _ _) as [e|[db' rs]]; [reflexivity|].
  cbn [snd]. unfold store_db. destruct (transient conn); [reflexivity | apply f_dbs].
Qed.

Lemma keeps_sqlite3_connect db_path : keeps f (sqlite3_connect db_path).
Proof.
  intros w. unfold sqlite3_connect. destruct (connect_error w db_path); [reflexivity|].
  cbn [snd]. destruct (transient db_path); [reflexivity|].
  destruct (w_dbs w !! db_path); [reflexivity|].
  destruct (w_fs w !! db_path); [reflexivity | apply f_dbs].
Qed.

Lemma keeps_py_len data : keeps f (py_len data).
Proof. destruct data; [apply keeps_ret | apply keeps_raise]. Qed.

Lemma keeps_hashlib_sha256 `{RT : Runtime} data : keeps f (hashlib_sha256 data).
Proof. destruct data; [apply keeps_ret | apply keeps_raise]. Qed.

Lemma keeps_get_image_dir_path : keeps f get_image_dir_path.
Proof.
  unfold get_image_dir_path.
  repeat first [ apply keeps_bind; [|intros ?] | apply keeps_if | apply keeps_sys_argv
               | apply keeps_py_index | apply keeps_path_isdir | apply keeps_print
               | apply keeps_ret | apply keeps_raise ].
Qed.

Lemma keeps_get_apod_date `{RT : Runtime} : keeps f get_apod_date.
Proof.
  unfold get_apod_date.
  apply keeps_bind; [apply keeps_sys_argv | intros argv].
  apply keeps_bind; [|intros d; apply keeps_bind; [apply keeps_print | intros; apply keeps_ret]].
  apply keeps_if; [|apply keeps_date_today].
  apply keeps_bind; [apply keeps_py_index | intros d].
  destruct (strptime d "%Y-%m-%d") as [[]|]; try apply keeps_raise; try apply keeps_ret.
  apply keeps_bind; [apply keeps_print | intros; apply keeps_raise].
Qed.

Lemma keeps_get_apod_info `{RT : Runtime} date : keeps f (get_apod_info date).
Proof.
  unfold get_apod_info.
  repeat first [ apply keeps_bind; [|intros ?] | apply keeps_if | apply keeps_requests_get
               | apply keeps_print | apply keeps_ret ].
Qed.

Lemma keeps_download_apod_image url : keeps f (download_apod_image url).
Proof.
  unfold download_apod_image.
  repeat first [ apply keeps_bind; [|intros ?] | apply keeps_if | apply keeps_requests_get
               | apply keeps_print | apply keeps_ret ].
Qed.

Lemma keeps_get_image_path url dir : keeps f (get_image_path url dir).
Proof.
  unfold get_image_path.
  repeat first [ apply keeps_bind; [|intros ?] | apply keeps_if | apply keeps_path_isdir
               | apply keeps_mkdir | apply keeps_ret ].
Qed.

Lemma keeps_print_apod_info url p size h : keeps f (print_apod_info url p size h).
Proof.
  unfold print_apod_info.
  repeat first [ apply keeps_bind; [|intros ?] | apply keeps_print | apply keeps_ret ].
Qed.

Lemma keeps_create_image_db `{RT : Runtime} db_path : keeps f (create_image_db db_path).
Proof.
  unfold create_image_db.
  repeat first [ apply keeps_bind; [|intros ?] | apply keeps_cursor_execute
               | apply keeps_sqlite3_connect | apply keeps_ret ].
Qed.

Lemma keeps_cache_image `{RT : Runtime} db_path msg p size h :
  keeps f (cache_image db_path msg p size h).
Proof.
  unfold cache_image, image_already_in_db, save_image_file, add_image_to_db.
  repeat first [ apply keeps_bind; [|intros ?] | apply keeps_if | apply keeps_cursor_execute
               | apply keeps_sqlite3_connect
               | apply keeps_ret ].
Qed.

End Keeps.

Ltac ignored := intros; reflexivity.

Lemma keeps_main_setup `{RT : Runtime} {X} (f : World -> X) :
  (forall out w, f (set_stdout out w) = f w) ->
  (forall l w, f (set_sent l w) = f w) ->
  (forall dbs w, f (set_dbs dbs w) = f w) ->
  keeps f main_setup.
Proof.
  intros Hout Hsent Hdbs. unfold main_setup.
  apply keeps_bind; [now apply keeps_get_image_dir_path | intros dir].
  apply keeps_bind; [now apply keeps_get_apod_date | intros date].
  apply keeps_bind; [now apply keeps_create_image_db | intros _].
  apply keeps_bind; [now apply keeps_get_apod_info | intros info].
  apply keeps_ret.
Qed.

Lemma keeps_main_finish `{RT : Runtime} {X} (f : World -> X) db_path fetched :
  (forall out w, f (set_stdout out w) = f w) ->
  (forall dbs w, f (set_dbs dbs w) = f w) ->
  keeps f (main_finish db_path fetched).
Proof.
  intros Hout Hdbs. destruct fetched as [[[[url msg] h] size] p]. unfold main_finish.
  apply keeps_bind; [now apply keeps_print_apod_info | intros _].
  apply keeps_bind; [now apply keeps_cache_image | intros _].
  apply keeps_ret.
Qed.


(** ** The files that a run can touch *)

Lemma taken_false w q : taken w q = false -> w_fs w !! q = None /\ w_dbs w !! q = None.
Proof.
  unfold taken. destruct (w_fs w !! q); [discriminate|].
  now destruct (w_dbs w !! q).
Qed.

Lemma fetch_image_fs `{RT : Runtime} dir w :
  let q := mkdir_key (path_join dir (last_segment image_url_const)) in
  w_fs (snd (fetch_image dir w)) = w_fs w \/
  (w_fs w !! q = None /\ w_fs (snd (fetch_image dir w)) = <[q := Dir]> (w_fs w)).
Proof.
  intros q. unfold fetch_image, bind.
  pose proof (keeps_download_apod_image w_fs ltac:(ignored) ltac:(ignored)
                image_url_const w) as H1.
  destruct (download_apod_image image_url_const w) as [[msg|e] w1]; cbn [fst snd] in *; [|now left].
  pose proof (keeps_hashlib_sha256 w_fs msg w1) as H2.
  destruct (hashlib_sha256 msg w1) as [[h|e] w2]; cbn [fst snd] in *; [|left; congruence].
  pose proof (keeps_py_len w_fs msg w2) as H3.
  destruct (py_len msg w2) as [[size|e] w3]; cbn [fst snd] in *; [|left; congruence].
  assert (Hfs : w_fs w3 = w_fs w) by congruence.
  rewrite get_image_path_eq. cbv zeta. fold q.
  destruct (isdir (w_fs w3) _); simpl; [now left|].
  destruct (mkdir_error w3 _) eqn:Em; simpl; [now left|].
  apply mkdir_error_free, taken_false in Em. fold q in Em. destruct Em as [Em _].
  right. rewrite <- Hfs. auto.
Qed.

(** ** The requests that a run sends *)

Lemma get_apod_info_sent `{RT : Runtime} date w :
  w_sent (snd (get_apod_info date w)) = (w_sent w ++ [api_request date])%list.
Proof.
  unfold get_apod_info, bind, requests_get, print, ret, api_request.
  destruct (w_net w _) as [e|resp]; [reflexivity|].
  now destruct (status_code resp =? 200).
Qed.

Lemma get_apod_date_result `{RT : Runtime} w d w1 :
  get_apod_date w = (Return d, w1) -> d = run_date w.
Proof.
  rewrite get_apod_date_eq. unfold run_date.
  destruct (w_argv w !! 2%nat) as [d0|]; simpl.
  - destruct (strptime d0 "%Y-%m-%d") as [[]|]; try discriminate. now intros [= <- _].
  - now intros [= <- _].
Qed.

Lemma main_setup_sent `{RT : Runtime} w :
  (w_sent (snd (main_setup w)) = w_sent w /\ exists e, fst (main_setup w) = Raise e) \/
  w_sent (snd (main_setup w)) = (w_sent w ++ [api_request (run_date w)])%list.
Proof.
  unfold main_setup, bind.
  pose proof (keeps_get_image_dir_path w_sent ltac:(ignored) w) as H1.
  pose proof (keeps_get_image_dir_path w_argv ltac:(ignored) w) as A1.
  pose proof (keeps_get_image_dir_path w_today ltac:(ignored) w) as T1.
  destruct (get_image_dir_path w) as [[dir|e] w1]; simpl in *; [|left; eauto].
  pose proof (keeps_get_apod_date w_sent ltac:(ignored) w1) as H2.
  pose proof (get_apod_date_result w1) as D2.
  destruct (get_apod_date w1) as [[date|e] w2]; simpl in *;
    [|left; split; [congruence | eauto]].
  specialize (D2 _ _ eq_refl). unfold run_date in D2. rewrite A1, T1 in D2.
  fold (run_date w) in D2. subst date.
  pose proof (keeps_create_image_db w_sent ltac:(ignored)
                (path_join dir "apod_images.db") w2) as H3.
  destruct (create_image_db _ w2) as [[[]|e] w3]; simpl in *;
    [|left; split; [congruence | eauto]].
  pose proof (get_apod_info_sent (run_date w) w3) as H4.
  destruct (get_apod_info (run_date w) w3) as [[info|e] w4]; simpl in *;
    right; congruence.
Qed.

Lemma fetch_image_sent `{RT : Runtime} dir w :
  w_sent (snd (fetch_image dir w))
  = (w_sent w ++ [image_request image_url_const])%list.
Proof.
  unfold fetch_image, bind. rewrite download_apod_image_eq. cbv zeta.
  set (w1 := set_sent _ _).
  assert (Hw1 : w_sent w1 = (w_sent w ++ [image_request image_url_const])%list)
    by reflexivity.
  destruct (w_net w _) as [e|resp]; [exact Hw1|].
  destruct (status_code resp =? 200); simpl; [|exact Hw1].
  rewrite get_image_path_eq. cbv zeta. simpl.
  destruct (isdir _ _); [exact Hw1|].
  destruct (mkdir_error _ _); exact Hw1.
Qed.

(** X5. Whatever the interpreter's library does and whatever the network
    answers, a run of [main] sends nothing, or the API request alone, or the
    API request followed by the request for the fixed page [astropix.html].
    The API request carries the date exactly as it was typed on the command
    line, or the clock's date when none was typed; no request is ever built
    from an answer of the network. *)
Theorem main_requests `{RT : Runtime} (w : World) :
  w_sent (snd (main w)) = w_sent w \/
  w_sent (snd (main w)) = (w_sent w ++ [api_request (run_date w)])%list \/
  w_sent (snd (main w))
  = (w_sent w ++ [api_request (run_date w); image_request image_url_const])%list.
Proof.
  rewrite main_staged_eq. unfold main_staged, bind.
  pose proof (main_setup_sent w) as Hs.
  destruct (main_setup w) as [[[[dir db] date]|e] w1]; simpl in Hs |- *.
  - destruct Hs as [[_ [e He]]|Hs]; [discriminate|].
    pose proof (fetch_image_sent dir w1) as Hf.
    destruct (fetch_image dir w1) as [[fetched|e] w2]; simpl in Hf |- *.
    + rewrite (keeps_main_finish w_sent db fetched ltac:(ignored) ltac:(ignored) w2).
      right; right. rewrite Hf, Hs, <- app_assoc. reflexivity.
    + right; right. rewrite Hf, Hs, <- app_assoc. reflexivity.
  - destruct Hs as [[Hs _]|Hs]; auto.
Qed.

(** ** The databases that a run can touch *)



Lemma keeps_fetch_image `{RT : Runtime} {X} (f : World -> X) dir :
  (forall out w, f (set_stdout out w) = f w) ->
  (forall l w, f (set_sent l w) = f w) ->
  (forall fs w, f (set_fs fs w) = f w) ->
  keeps f (fetch_image dir).
Proof.
  intros Hout Hsent Hfs. unfold fetch_image.
  apply keeps_bind; [now apply keeps_download_apod_image | intros msg].
  apply keeps_bind; [apply keeps_hashlib_sha256 | intros h].
  apply keeps_bind; [apply keeps_py_len | intros size].
  apply keeps_bind; [now apply keeps_get_image_path | intros p].
  apply keeps_ret.
Qed.

Lemma main_finish_keeps_db db_path fetched p :
  keeps (fun w => db_at w p) (@main_finish CPython db_path fetched).
Proof.
  destruct fetched as [[[[url msg] h] size] path]. unfold main_finish.
  apply keeps_bind; [apply keeps_print_apod_info; ignored | intros _].
  apply keeps_bind; [|intros _; apply keeps_ret].
  intros w. apply cache_image_keeps_store.
Qed.



(** What one call of [create_image_db] does to the database at [p], however
    it ends. *)
Lemma create_image_db_effect db_path w p :
  db_at (snd (@create_image_db CPython db_path w)) p = db_at w p \/
  (p = db_path /\
   find_table "apod_images" (db_at w p) = None /\
   db_at (snd (@create_image_db CPython db_path w)) p
   = (db_at w p ++ [empty_apod_table])%list).
Proof.
  rewrite create_image_db_eq. destruct (store_error w db_path); [now left|].
  cbn [snd]. unfold store_db, open_db. destruct (transient db_path); [now left|].
  rewrite db_at_insert. destruct (decide (db_path = p)) as [<-|]; [|now left].
  destruct (find_table "apod_images" (db_at w db_path)) eqn:Ef; [now left|].
  right. auto.
Qed.


(** What [main_setup] does to the database at [p], however it ends. *)
Lemma main_setup_db_effect w p :
  db_at (snd (@main_setup CPython w)) p = db_at w p \/
  exists dir,
    w_argv w !! 1%nat = Some dir /\ p = path_join dir "apod_images.db" /\
    find_table "apod_images" (db_at w p) = None /\
    db_at (snd (@main_setup CPython w)) p = (db_at w p ++ [empty_apod_table])%list.
Proof.
  unfold main_setup, bind. rewrite get_image_dir_path_eq.
  destruct (w_argv w !! 1%nat) as [dir|] eqn:Hargv; [|now left].
  destruct (isdir (w_fs w) dir); [|now left].
  pose proof (keeps_get_apod_date (fun w => db_at w p) ltac:(ignored)
                (set_stdout (w_stdout w ++ [[VStr "Images directory:"; VStr dir]])%list w))
    as H2.
  destruct (get_apod_date _) as [[date|e] wb]; cbn [fst snd] in *; [|now left].
  change (db_at (set_stdout _ w) p) with (db_at w p) in H2.
  pose proof (create_image_db_effect (path_join dir "apod_images.db") wb p) as H3.
  destruct (@create_image_db CPython (path_join dir "apod_images.db") wb) as [[[]|e] wc];
    cbn [fst snd] in *.
  - pose proof (keeps_get_apod_info (fun w => db_at w p) ltac:(ignored) ltac:(ignored)
                  date wc) as H4.
    assert (Hend : db_at (snd (let (r, w') := get_apod_info date wc in
                               match r with
                               | Return _ =>
                                   ret (dir, path_join dir "apod_images.db", date) w'
                               | Raise e => (Raise e, w')
                               end)) p = db_at wc p).
    { destruct (get_apod_info date wc) as [[info|e] wd]; exact H4. }
    rewrite Hend. rewrite H2 in H3.
    destruct H3 as [H3|(Hp & Hf & H3)]; [now left|].
    right. exists dir. auto.
  - rewrite H2 in H3. destruct H3 as [H3|(Hp & Hf & H3)]; [now left|].
    right. exists dir. auto.
Qed.

(** X7. Under SQLite, whatever the network answers, the only change a run
    of [main] can make to any database is to add the empty table
    [apod_images] to the file [apod_images.db] of the directory given on the
    command line, when that file had no such table; no row is ever inserted,
    changed or removed. *)
Theorem main_database_effect (w : World) (p : string) :
  db_at (snd (@main CPython w)) p = db_at w p \/
  exists dir,
    w_argv w !! 1%nat = Some dir /\ p = path_join dir "apod_images.db" /\
    find_table "apod_images" (db_at w p) = None /\
    db_at (snd (@main CPython w)) p = (db_at w p ++ [empty_apod_table])%list.
Proof.
  assert (Hend : db_at (snd (@main CPython w)) p = db_at (snd (@main_setup CPython w)) p).
  { rewrite main_staged_eq. unfold main_staged, bind.
    destruct (@main_setup CPython w) as [[[[dir db] date]|e] w1]; [|reflexivity].
    cbn [fst snd].
    apply (keeps_bind (fun w => db_at w p) (fetch_image dir) (main_finish db)).
    - apply keeps_fetch_image; ignored.
    - intros fetched. apply main_finish_keeps_db. }
  rewrite Hend. apply main_setup_db_effect.
Qed.


(** ** Where a run ends *)



(** X9. When the directory named on the command line does not exist, [main]
    prints the error line with that name and exits with the abort message,
    whatever the date argument is; the script does not create the directory
    and does nothing else. *)
Theorem nonexistent_directory_aborts `{RT : Runtime} (w : World) (dir : string) :
  w_argv w !! 1%nat = Some dir ->
  isdir (w_fs w) dir = false ->
  main w = (Raise aborted,
            set_stdout (w_stdout w
                        ++ [[VStr "Error: Non-existent directory"; VStr dir]])%list w) /\
  exit_status aborted = 1.
Proof.
  intros Hargv Hdir. split; [|reflexivity].
  unfold main, bind. now rewrite get_image_dir_path_eq, Hargv, Hdir.
Qed.

(** X9 on the sample machine, which has no directory [/tmp/y]. *)
Lemma nonexistent_directory_aborts_witness :
  @main CPython (sample_world ["apod_desktop.py"; "/tmp/y"; "2022-04-27"] (serve 200 abc))
  = (Raise aborted,
     set_stdout [[VStr "Error: Non-existent directory"; VStr "/tmp/y"]]
       (sample_world ["apod_desktop.py"; "/tmp/y"; "2022-04-27"] (serve 200 abc))) /\
  exit_status aborted = 1.
Proof.
  apply (@nonexistent_directory_aborts CPython
           (sample_world ["apod_desktop.py"; "/tmp/y"; "2022-04-27"] (serve 200 abc))
           "/tmp/y"); reflexivity.
Defined.

(** ** A download that succeeds *)



(** ** What a run depends on *)

Lemma same_inputs_stdout w1 w2 out1 out2 :
  same_inputs w1 w2 -> same_inputs (set_stdout out1 w1) (set_stdout out2 w2).
Proof. intros (? & ? & ? & ? & ? & ? & ?). now repeat split. Qed.

Lemma same_inputs_sent w1 w2 l :
  same_inputs w1 w2 ->
  same_inputs (set_sent (w_sent w1 ++ l)%list w1) (set_sent (w_sent w2 ++ l)%list w2).
Proof. intros (? & ? & ? & ? & Hsent & ? & ?). repeat split; simpl; congruence. Qed.

Lemma same_inputs_fs w1 w2 fs :
  same_inputs w1 w2 -> same_inputs (set_fs fs w1) (set_fs fs w2).
Proof. intros (? & ? & ? & ? & ? & ? & ?). now repeat split. Qed.

Lemma same_inputs_dbs w1 w2 dbs :
  same_inputs w1 w2 -> same_inputs (set_dbs dbs w1) (set_dbs dbs w2).
Proof. intros (? & ? & ? & ? & ? & ? & ?). now repeat split. Qed.

Lemma rio_ret {A} (a : A) : reads_inputs_only (ret a).
Proof. intros w1 w2 Hs. now split. Qed.

Lemma rio_raise {A} e : reads_inputs_only (@raise A e).
Proof. intros w1 w2 Hs. now split. Qed.

Lemma rio_bind {A B} (m : M A) (k : A -> M B) :
  reads_inputs_only m -> (forall a, reads_inputs_only (k a)) -> reads_inputs_only (bind m k).
Proof.
  intros Hm Hk w1 w2 Hs. unfold bind.
  destruct (Hm w1 w2 Hs) as [Hr Hw].
  destruct (m w1) as [[a1|e1] w1'], (m w2) as [[a2|e2] w2']; simpl in *;
    try discriminate.
  - injection Hr as ->. now apply Hk.
  - injection Hr as ->. now split.
Qed.

Lemma rio_if {A} (b : bool) (m1 m2 : M A) :
  reads_inputs_only m1 -> reads_inputs_only m2 -> reads_inputs_only (if b then m1 else m2).
Proof. now destruct b. Qed.

Lemma rio_print args : reads_inputs_only (print args).
Proof. intros w1 w2 Hs. split; [reflexivity|]. now apply same_inputs_stdout. Qed.

Lemma rio_path_isdir p : reads_inputs_only (path_isdir p).
Proof.
  intros w1 w2 Hs. split; [|exact Hs]. unfold path_isdir. simpl.
  destruct Hs as (_ & _ & _ & _ & _ & -> & _). reflexivity.
Qed.

Lemma rio_mkdir p : reads_inputs_only (mkdir p).
Proof.
  intros w1 w2 Hs. unfold mkdir.
  pose proof Hs as (_ & _ & _ & _ & _ & Hfs & Hdbs).
  rewrite (mkdir_error_ext w1 w2 p Hfs Hdbs), Hfs.
  destruct (mkdir_error w2 p); [now split|].
  split; [reflexivity|]. now apply same_inputs_fs.
Qed.

Lemma rio_requests_get_image : reads_inputs_only (requests_get image_url_const []).
Proof.
  intros w1 w2 Hs. unfold requests_get.
  pose proof Hs as (_ & _ & _ & Hnet & _). unfold image_request in Hnet. rewrite Hnet.
  destruct (w_net w2 _); (split; [reflexivity|]); now apply same_inputs_sent.
Qed.

Lemma rio_cursor_execute `{RT : Runtime} conn sql : reads_inputs_only (cursor_execute conn sql).
Proof.
  intros w1 w2 Hs. unfold cursor_execute.
  pose proof Hs as (_ & _ & _ & _ & _ & Hfs & Hdbs).
  rewrite (not_a_database_ext w1 w2 conn Hfs Hdbs), (open_db_ext w1 w2 conn Hdbs).
  destruct (not_a_database w2 conn); [now split|].
  destruct (execute _ sql) as [e|[db' rs]]; [now split|].
  split; [reflexivity|]. cbn [snd]. unfold store_db.
  destruct (transient conn); [exact Hs|]. rewrite Hdbs. now apply same_inputs_dbs.
Qed.

Lemma rio_sqlite3_connect db_path : reads_inputs_only (sqlite3_connect db_path).
Proof.
  intros w1 w2 Hs. unfold sqlite3_connect.
  pose proof Hs as (_ & _ & _ & _ & _ & Hfs & Hdbs).
  rewrite (connect_error_ext w1 w2 db_path Hfs Hdbs), Hdbs, Hfs.
  destruct (connect_error w2 db_path); [now split|].
  split; [reflexivity|]. cbn [snd].
  destruct (transient db_path); [exact Hs|].
  destruct (w_dbs w2 !! db_path); [exact Hs|].
  destruct (w_fs w2 !! db_path); [exact Hs|].
  now apply same_inputs_dbs.
Qed.

Lemma rio_get_image_dir_path : reads_inputs_only get_image_dir_path.
Proof.
  intros w1 w2 Hs. rewrite !get_image_dir_path_eq.
  pose proof Hs as (Ha & _ & _ & _ & _ & Hfs & _). rewrite Ha, Hfs.
  destruct (w_argv w2 !! 1%nat) as [dir|]; [destruct (isdir (w_fs w2) dir)|];
    (split; [reflexivity|]); now apply same_inputs_stdout.
Qed.

Lemma rio_get_apod_date `{RT : Runtime} : reads_inputs_only get_apod_date.
Proof.
  intros w1 w2 Hs. rewrite !get_apod_date_eq.
  pose proof Hs as (_ & Ha & Ht & _). rewrite Ha, Ht.
  destruct (w_argv w2 !! 2%nat) as [d|].
  - destruct (strptime d "%Y-%m-%d") as [[]|]; try now split.
    all: split; [reflexivity|]; now apply same_inputs_stdout.
  - split; [reflexivity|]. now apply same_inputs_stdout.
Qed.

Lemma rio_create_image_db `{RT : Runtime} db_path : reads_inputs_only (create_image_db db_path).
Proof.
  unfold create_image_db.
  apply rio_bind; [apply rio_sqlite3_connect | intros conn].
  apply rio_bind; [apply rio_cursor_execute | intros _; apply rio_ret].
Qed.

Lemma rio_fetch_image `{RT : Runtime} dir : reads_inputs_only (fetch_image dir).
Proof.
  unfold fetch_image, download_apod_image, get_image_path.
  repeat first [ apply rio_bind; [|intros ?] | apply rio_if | apply rio_print
               | apply rio_requests_get_image | apply rio_path_isdir | apply rio_mkdir
               | apply rio_ret
               | match goal with
                 | |- reads_inputs_only (hashlib_sha256 ?d) => destruct d; simpl
                 | |- reads_inputs_only (py_len ?d) => destruct d; simpl
                 end
               | apply rio_raise ].
Qed.

Lemma rio_main_finish `{RT : Runtime} db_path fetched :
  reads_inputs_only (main_finish db_path fetched).
Proof.
  destruct fetched as [[[[url msg] h] size] p].
  unfold main_finish, print_apod_info, cache_image, image_already_in_db,
    save_image_file, add_image_to_db, set_desktop_background_image.
  repeat first [ apply rio_bind; [|intros ?] | apply rio_if | apply rio_print
               | apply rio_cursor_execute | apply rio_sqlite3_connect | apply rio_ret ].
Qed.

Lemma get_apod_info_answered `{RT : Runtime} date resp w :
  w_net w (api_request date) = inr resp ->
  exists info out,
    get_apod_info date w
    = (Return info, set_stdout out (set_sent (w_sent w ++ [api_request date])%list w)).
Proof.
  intros Hnet. unfold get_apod_info, bind, requests_get, print, ret.
  unfold api_request in Hnet. rewrite Hnet.
  destruct (status_code resp =? 200); eauto.
Qed.

(** The date, the network and the command line after the first three steps
    of [main_setup]. *)
Lemma setup_prefix_keeps `{RT : Runtime} w dir wa date wb r wc :
  get_image_dir_path w = (Return dir, wa) ->
  get_apod_date wa = (Return date, wb) ->
  create_image_db (path_join dir "apod_images.db") wb = (r, wc) ->
  date = run_date w /\ w_net wc = w_net w.
Proof.
  intros H1 H2 H3.
  pose proof (keeps_get_image_dir_path w_argv ltac:(ignored) w) as A1.
  pose proof (keeps_get_image_dir_path w_today ltac:(ignored) w) as T1.
  pose proof (keeps_get_image_dir_path w_net ltac:(ignored) w) as N1.
  pose proof (keeps_get_apod_date w_net ltac:(ignored) wa) as N2.
  pose proof (keeps_create_image_db w_net ltac:(ignored)
                (path_join dir "apod_images.db") wb) as N3.
  rewrite H1 in A1, T1, N1. rewrite H2 in N2. rewrite H3 in N3. cbn [snd] in *.
  split; [|congruence].
  rewrite (get_apod_date_result _ _ _ H2). unfold run_date. now rewrite A1, T1.
Qed.

Lemma main_setup_inputs `{RT : Runtime} w1 w2 :
  same_inputs w1 w2 ->
  (exists resp, w_net w1 (api_request (run_date w1)) = inr resp) ->
  (exists resp, w_net w2 (api_request (run_date w2)) = inr resp) ->
  fst (main_setup w1) = fst (main_setup w2) /\
  same_inputs (snd (main_setup w1)) (snd (main_setup w2)).
Proof.
  intros Hs [r1 Hn1] [r2 Hn2]. unfold main_setup, bind.
  destruct (rio_get_image_dir_path w1 w2 Hs) as [Hr Hw].
  destruct (get_image_dir_path w1) as [[d1|e1] wa1] eqn:G1,
           (get_image_dir_path w2) as [[d2|e2] wa2] eqn:G2;
    cbn [fst snd] in *; try discriminate; [|injection Hr as ->; now split].
  injection Hr as <-.
  destruct (rio_get_apod_date wa1 wa2 Hw) as [Hr' Hw'].
  destruct (get_apod_date wa1) as [[date1|e1] wb1] eqn:D1,
           (get_apod_date wa2) as [[date2|e2] wb2] eqn:D2;
    cbn [fst snd] in *; try discriminate; [|injection Hr' as ->; now split].
  injection Hr' as <-.
  destruct (rio_create_image_db (path_join d1 "apod_images.db") wb1 wb2 Hw') as [Hr'' Hw''].
  destruct (create_image_db _ wb1) as [[[]|e1] wc1] eqn:C1,
           (create_image_db _ wb2) as [[[]|e2] wc2] eqn:C2;
    cbn [fst snd] in *; try discriminate; [|injection Hr'' as ->; now split].
  destruct (setup_prefix_keeps _ _ _ _ _ _ _ G1 D1 C1) as [Hd1 Hnet1].
  destruct (setup_prefix_keeps _ _ _ _ _ _ _ G2 D2 C2) as [Hd2 Hnet2].
  rewrite <- Hd1, <- Hnet1 in Hn1. rewrite <- Hd2, <- Hnet2 in Hn2.
  destruct (get_apod_info_answered _ _ _ Hn1) as (i1 & o1 & ->).
  destruct (get_apod_info_answered _ _ _ Hn2) as (i2 & o2 & ->).
  cbn [fst snd ret]. split; [reflexivity|].
  apply same_inputs_stdout. now apply same_inputs_sent.
Qed.

Lemma main_setup_raise `{RT : Runtime} w e w1 :
  main_setup w = (Raise e, w1) -> main w = (Raise e, w1).
Proof.
  intros Hsetup. rewrite main_staged_eq. unfold main_staged.
  unfold bind at 1. now rewrite Hsetup.
Qed.

(** X11. The outcome of [main] and what it does to files, databases and the
    network are determined by the directory and date arguments, the clock,
    the files, the databases and the network's answer for the image, as long
    as the API information request gets an answer: the program name, further
    arguments, and the status and body of the API's answer make no difference. *)
Theorem main_reads_inputs_only `{RT : Runtime} (w1 w2 : World) :
  same_inputs w1 w2 ->
  (exists resp, w_net w1 (api_request (run_date w1)) = inr resp) ->
  (exists resp, w_net w2 (api_request (run_date w2)) = inr resp) ->
  fst (main w1) = fst (main w2) /\ same_inputs (snd (main w1)) (snd (main w2)).
Proof.
  intros Hs Hn1 Hn2.
  destruct (main_setup_inputs w1 w2 Hs Hn1 Hn2) as [Hr Hw].
  destruct (main_setup w1) as [[s1|e1] v1] eqn:S1, (main_setup w2) as [[s2|e2] v2] eqn:S2;
    cbn [fst snd] in *; try discriminate.
  - injection Hr as <-.
    rewrite (main_after_setup _ _ _ S1), (main_after_setup _ _ _ S2).
    apply (rio_bind (fetch_image (fst (fst s1))) (main_finish (snd (fst s1))));
      [apply rio_fetch_image | intros; apply rio_main_finish | exact Hw].
  - injection Hr as <-.
    rewrite (main_setup_raise _ _ _ S1), (main_setup_raise _ _ _ S2). now split.
Qed.

(** X11 on the sample machine: another program name, a fourth argument and
    an API that answers 403 with another body. *)
Lemma main_reads_inputs_only_witness :
  fst (@main CPython (run_on "2022-04-27"))
  = fst (@main CPython
           (sample_world ["other.py"; "/tmp/x"; "2022-04-27"; "extra"]
              (serve_api {| status_code := 403; content := [] |} abc))) /\
  same_inputs
    (snd (@main CPython (run_on "2022-04-27")))
    (snd (@main CPython
            (sample_world ["other.py"; "/tmp/x"; "2022-04-27"; "extra"]
               (serve_api {| status_code := 403; content := [] |} abc)))).
Proof.
  apply (@main_reads_inputs_only CPython (run_on "2022-04-27")
           (sample_world ["other.py"; "/tmp/x"; "2022-04-27"; "extra"]
              (serve_api {| status_code := 403; content := [] |} abc))).
  - repeat split.
  - eexists. reflexivity.
  - eexists. reflexivity.
Defined.
